(** * chv-ServiceAccountPrivilegeChecker: a shallow embedding of [main.py]

    The program loads a configuration document and a JSON schema, hands both
    to [jsonschema.validate], turns the library's exception (if any) into a
    list of error dictionaries, formats a report and derives the exit code.

    Strings are [string], Python dictionaries are association lists (a Python
    dictionary keeps insertion order), exceptions are values of [exn] carried
    by [result], and the calls that leave the program (the file system, the
    YAML and JSON parsers, the jsonschema package) are variables of the
    sections that use them. *)

From Stdlib Require Import String Ascii List Bool Arith ZArith QArith Lia.
From Stdlib Require Import DecimalString.
Import ListNotations.

Local Close Scope Q_scope.
Local Open Scope list_scope.
Local Open Scope string_scope.

(** Both lists and strings are appended throughout; [++l] is the list one. *)
Local Notation "xs ++l ys" := (@app _ xs ys) (at level 60, right associativity).

(** ** Strings *)

Module Str.

(** The line feed written [\n] in the Python source. *)
Definition nl : string := String (ascii_of_nat 10) EmptyString.

(** [s.endswith(suffix)] *)
Definition endswith (s suffix : string) : bool :=
  let n := String.length s in
  let k := String.length suffix in
  (k <=? n)%nat && String.eqb (substring (n - k) k s) suffix.

(** [sep.join(parts)] *)
Fixpoint join (sep : string) (parts : list string) : string :=
  match parts with
  | [] => ""
  | [p] => p
  | p :: rest => p ++ sep ++ join sep rest
  end.

(** [str(n)] for a non-negative integer. *)
Definition of_nat (n : nat) : string :=
  NilEmpty.string_of_uint (Nat.to_uint n).

(** [s.startswith(pat)] *)
Fixpoint startswith (pat s : string) : bool :=
  match pat, s with
  | EmptyString, _ => true
  | String _ _, EmptyString => false
  | String a pat', String b s' => Ascii.eqb a b && startswith pat' s'
  end.

(** The number of positions of [s] at which [pat] starts; for a pattern
    that cannot overlap itself this is [s.count(pat)]. *)
Fixpoint occurrences (pat s : string) : nat :=
  match s with
  | EmptyString => 0
  | String _ rest =>
      (if startswith pat s then 1 else 0) + occurrences pat rest
  end.

(** [pat in s] *)
Fixpoint contains (pat s : string) : bool :=
  startswith pat s ||
  match s with
  | EmptyString => false
  | String _ rest => contains pat rest
  end.

(** [c] is one of the characters of [s]. *)
Fixpoint mem (c : ascii) (s : string) : bool :=
  match s with
  | EmptyString => false
  | String d rest => Ascii.eqb c d || mem c rest
  end.

End Str.

(** ** Values: what [yaml.safe_load] and [json.load] return *)

Unset Elimination Schemes.
Inductive value : Type :=
| Null
| Boolean (b : bool)
| Number (q : Q)
| String_ (s : string)
| Sequence (items : list value)
| Mapping (entries : list (string * value)).
Set Elimination Schemes.

(** [d.get(key)]: the value bound to [key], if any. *)
Fixpoint lookup (key : string) (entries : list (string * value)) : option value :=
  match entries with
  | [] => None
  | (k, v) :: rest => if String.eqb key k then Some v else lookup key rest
  end.

(** [key in d] *)
Definition has_key (key : string) (entries : list (string * value)) : bool :=
  match lookup key entries with Some _ => true | None => false end.

(** ** Exceptions and results *)

(** One element of [e.path]: a mapping key or a sequence index. *)
Inductive segment : Type :=
| Key (k : string)
| Index (i : nat).

(** [str(segment)], as [map(str, e.path)] applies it. *)
Definition str_segment (s : segment) : string :=
  match s with
  | Key k => k
  | Index i => Str.of_nat i
  end.

(** The exception classes the program names, each with what [str(e)] gives;
    [ValidationError] also carries the [message] and [path] attributes that
    [validate_config] reads.  [OtherException] is any other subclass of
    [Exception] (a [PermissionError], a [UnicodeDecodeError], ...). *)
Inductive exn : Type :=
| FileNotFoundError (msg : string)
| ValueError (msg : string)
| YAMLError (msg : string)
| JSONDecodeError (msg : string)
| ValidationError (message : string) (path : list segment)
| SchemaError (msg : string)
| OtherException (msg : string).

Definition str (e : exn) : string :=
  match e with
  | FileNotFoundError m | ValueError m | YAMLError m | JSONDecodeError m
  | SchemaError m | OtherException m => m
  | ValidationError m _ => m
  end.

Inductive result (A : Type) : Type :=
| Return (a : A)
| Raise (e : exn).

Arguments Return {A} a.
Arguments Raise {A} e.

(** ** The error dictionaries and the report *)

(** The dictionary [{"message": ..., "path": ...}] built by [validate_config]. *)
Record error_info : Type := mk_error { message : string; path : string }.

(** One turn of the [for error in validation_errors] loop. *)
Definition report_step (report : string) (error : error_info) : string :=
  (report ++ "  - Path: " ++ path error ++ Str.nl)
    ++ "    Message: " ++ message error ++ Str.nl.

Definition generate_report (validation_errors : list error_info) : string :=
  match validation_errors with
  | [] => "Configuration validation successful. No issues found."
  | _ => fold_left report_step validation_errors
           ("Configuration validation failed:" ++ Str.nl)
  end.

(** ** The program over its collaborators *)

(** What [print(report)] does: the text reaches standard output, or
    [print] raises.  It raises [UnicodeEncodeError], a [ValueError], when
    the encoding of standard output cannot encode the report, and an
    [OSError] when the stream cannot be written (a closed pipe, a full
    device). *)
Inductive printed : Type :=
| Printed
| Encode_error (encoding detail : string)
| Stream_error (msg : string).

(** [str(e)] of a [UnicodeEncodeError]: the codec in quotes, then what it
    could not encode, where and why. *)
Definition str_encode_error (encoding detail : string) : string :=
  "'" ++ encoding ++ "' codec can't encode " ++ detail.

Section Program.

(** [open(path, 'r')] followed by reading: the text of the file, or the
    exception [open] raises. *)
Variable open_read : string -> result string.

(** [yaml.safe_load] and [json.load], on the text of the file. *)
Variable yaml_safe_load : string -> result value.
Variable json_load : string -> result value.

(** [jsonschema.validate(instance=..., schema=...)]: returns [None] or
    raises. *)
Variable jsonschema_validate : value -> value -> result unit.

(** [open(path, 'w')] followed by [f.write(report)]. *)
Variable open_write : string -> string -> result unit.

(** [print(report)], line 172. *)
Variable print_stdout : string -> printed.

(** The body of the [try] of [load_config], lines 40-53. *)
Definition load_config_body (config_file : string) : result value :=
  match open_read config_file with
  | Raise e => Raise e
  | Return f =>
      if Str.endswith config_file ".yaml" || Str.endswith config_file ".yml"
      then
        match yaml_safe_load f with
        | Return config_data => Return config_data
        | Raise (YAMLError e) =>
            Raise (ValueError ("Error loading YAML file: " ++ e))
        | Raise e => Raise e
        end
      else if Str.endswith config_file ".json" then
        match json_load f with
        | Return config_data => Return config_data
        | Raise (JSONDecodeError e) =>
            Raise (ValueError ("Error loading JSON file: " ++ e))
        | Raise e => Raise e
        end
      else Raise (ValueError "Unsupported file format.  Must be YAML or JSON.")
  end.

(** [load_config]: the body under its two [except] clauses, lines 54-57. *)
Definition load_config (config_file : string) : result value :=
  match load_config_body config_file with
  | Return config_data => Return config_data
  | Raise (FileNotFoundError _) =>
      Raise (FileNotFoundError ("Configuration file not found: " ++ config_file))
  | Raise e =>
      Raise (ValueError ("Error loading configuration file: " ++ str e))
  end.

Definition load_schema_body (schema_file : string) : result value :=
  match open_read schema_file with
  | Raise e => Raise e
  | Return f =>
      match json_load f with
      | Return schema_data => Return schema_data
      | Raise (JSONDecodeError e) =>
          Raise (ValueError ("Error loading JSON schema: " ++ e))
      | Raise e => Raise e
      end
  end.

Definition load_schema (schema_file : string) : result value :=
  match load_schema_body schema_file with
  | Return schema_data => Return schema_data
  | Raise (FileNotFoundError _) =>
      Raise (FileNotFoundError ("Schema file not found: " ++ schema_file))
  | Raise e =>
      Raise (ValueError ("Error loading schema file: " ++ str e))
  end.

(** [validate_config], lines 101-118. *)
Definition validate_config (config_data schema_data : value)
  : result (list error_info) :=
  match jsonschema_validate config_data schema_data with
  | Return _ => Return []
  | Raise (ValidationError e_message e_path) =>
      let errors := [] in
      let error_path := Str.join "." (map str_segment e_path) in
      let error_info := mk_error e_message error_path in
      Return (errors ++l [error_info])
  | Raise (SchemaError e) => Raise (ValueError ("Invalid schema: " ++ e))
  | Raise e => Raise (OtherException ("Unexpected validation error: " ++ str e))
  end.

(** The namespace [setup_argparse] returns. *)
Record namespace : Type := mk_args {
  config_file : string;
  schema_file : string;
  log_level : string;
  output_file : option string
}.

(** What a run leaves behind: calls of the [logging] module (level and
    message), the report printed, the report written to a file. *)
Inductive event : Type :=
| Log (level : string) (msg : string)
| Print (text : string)
| Write_file (file : string) (text : string).

(** The [except] clauses of [main], lines 180-191: every one logs and
    calls [sys.exit(1)]. *)
Definition main_except (trace : list event) (e : exn) : list event * Z :=
  match e with
  | FileNotFoundError _ => (trace ++l [Log "ERROR" (str e)], 1%Z)
  | ValueError _ | JSONDecodeError _ => (trace ++l [Log "ERROR" (str e)], 1%Z)
  | ValidationError _ _ =>
      (trace ++l [Log "ERROR" ("Schema validation error: " ++ str e)], 1%Z)
  | _ =>
      (trace ++l [Log "ERROR" ("An unexpected error occurred: " ++ str e)], 1%Z)
  end.

(** [if args.output_file:] holds for a path that is given and not empty. *)
Definition given (o : option string) : option string :=
  match o with
  | Some "" => None
  | _ => o
  end.

(** [main] from the point where [setup_argparse] has returned [args],
    lines 148-191, to the exit code of the process (0 when [main]
    returns).  The write of the report has a [try] of its own; [print] has
    not, so what it raises reaches the [except] clauses of [main]. *)
Definition main_with_args (args : namespace) : list event * Z :=
  let t0 := [Log "INFO" "Starting chv-ServiceAccountPrivilegeChecker..."] in
  match load_config (config_file args) with
  | Raise e => main_except t0 e
  | Return config_data =>
  let t1 := t0 ++l [Log "INFO" ("Configuration file loaded: " ++ config_file args)] in
  match load_schema (schema_file args) with
  | Raise e => main_except t1 e
  | Return schema_data =>
  let t2 := t1 ++l [Log "INFO" ("Schema file loaded: " ++ schema_file args)] in
  match validate_config config_data schema_data with
  | Raise e => main_except t2 e
  | Return validation_errors =>
  let t3 := t2 ++l [Log "INFO" "Configuration validation completed."] in
  let report := generate_report validation_errors in
  let finish t4 :=
    match validation_errors with
    | _ :: _ => (t4, 1%Z)
    | [] =>
        (t4 ++l [Log "INFO" "chv-ServiceAccountPrivilegeChecker completed successfully."],
         0%Z)
    end in
  match given (output_file args) with
  | Some out =>
      match open_write out report with
      | Return _ =>
          finish (t3 ++l [Write_file out report;
                          Log "INFO" ("Report saved to: " ++ out)])
      | Raise e =>
          finish (t3 ++l [Log "ERROR" ("Error writing report to file: " ++ str e)])
      end
  | None =>
      match print_stdout report with
      | Printed => finish (t3 ++l [Print report])
      | Encode_error encoding detail =>
          main_except t3 (ValueError (str_encode_error encoding detail))
      | Stream_error msg => main_except t3 (OtherException msg)
      end
  end
  end end end.

(** What [parser.parse_args()] makes of the command line: the namespace,
    or the end of the process with a status of its own ([sys.exit] inside
    [argparse], a [SystemExit] that no [except Exception] clause of [main]
    catches). *)
Inductive parsed : Type :=
| Args (args : namespace)
| Exit (status : Z).

Variable setup_argparse : list string -> parsed.

(** [main], from the command line to the exit code of the process. *)
Definition main (argv : list string) : list event * Z :=
  match setup_argparse argv with
  | Exit status => ([], status)
  | Args args => main_with_args args
  end.

End Program.

(** ** The validator behind [jsonschema.validate] *)

(** First result of [f] along a list, and the same with the position of each
    element: the two loops of a fail-fast walk. *)
Section FirstResult.
Context {A B : Type}.

Definition first_some (f : A -> option B) : list A -> option B :=
  fix go (l : list A) : option B :=
    match l with
    | [] => None
    | x :: rest =>
        match f x with
        | Some b => Some b
        | None => go rest
        end
    end.

Definition first_indexed (f : nat -> A -> option B) : nat -> list A -> option B :=
  fix go (i : nat) (l : list A) : option B :=
    match l with
    | [] => None
    | x :: rest =>
        match f i x with
        | Some b => Some b
        | None => go (S i) rest
        end
    end.

Definition flat_indexed (f : nat -> A -> list B) : nat -> list A -> list B :=
  fix go (i : nat) (l : list A) : list B :=
    match l with
    | [] => []
    | x :: rest => f i x ++l go (S i) rest
    end.

Definition forall2b (f : A -> B -> bool) : list A -> list B -> bool :=
  fix go (l : list A) (r : list B) : bool :=
    match l, r with
    | [], [] => true
    | x :: l', y :: r' => f x y && go l' r'
    | _, _ => false
    end.

(** [P] holds of every element. *)
Definition every (P : A -> Prop) : list A -> Prop :=
  fix go (l : list A) : Prop :=
    match l with
    | [] => True
    | x :: rest => P x /\ go rest
    end.
End FirstResult.

Module Jsonschema.

(** A violation as the validator finds it: where, and what. *)
Definition violation : Type := (list segment * string)%type.

(** The seven names a [type] keyword may carry. *)
Definition known_types : list string :=
  ["object"; "array"; "string"; "number"; "integer"; "boolean"; "null"].

Definition is_known_type (t : string) : bool :=
  existsb (String.eqb t) known_types.

(** A number is whole when its denominator divides its numerator. *)
Definition is_whole (q : Q) : bool :=
  (Qnum q mod Zpos (Qden q) =? 0)%Z.

(** Modelled from the spec: the runtime kind that each [type] name
    accepts ([jsonschema] itself is not part of the sources). *)
Definition type_matches (t : string) (doc : value) : bool :=
  match doc with
  | Mapping _ => String.eqb t "object"
  | Sequence _ => String.eqb t "array"
  | String_ _ => String.eqb t "string"
  | Number q =>
      String.eqb t "number" || (String.eqb t "integer" && is_whole q)
  | Boolean _ => String.eqb t "boolean"
  | Null => String.eqb t "null"
  end.

(** Modelled from the spec: equality of two documents by value, the test
    behind [uniqueItems] ([jsonschema] itself is not part of the sources).
    Mappings are compared key by key, whatever the order of their entries. *)
Fixpoint value_eqb (a b : value) {struct a} : bool :=
  match a, b with
  | Null, Null => true
  | Boolean x, Boolean y => Bool.eqb x y
  | Number x, Number y => Qeq_bool x y
  | String_ x, String_ y => String.eqb x y
  | Sequence xs, Sequence ys => forall2b value_eqb xs ys
  | Mapping xs, Mapping ys =>
      (List.length xs =? List.length ys)%nat &&
      forallb (fun kv =>
                 match lookup (fst kv) ys with
                 | Some y => value_eqb (snd kv) y
                 | None => false
                 end) xs
  | _, _ => false
  end.

(** Some element equals a later one. *)
Fixpoint has_duplicate (l : list value) : bool :=
  match l with
  | [] => false
  | x :: rest => existsb (value_eqb x) rest || has_duplicate rest
  end.

(** Modelled from the spec: when a schema document is structurally a
    schema (section 3, SchemaNode): a mapping whose [type] is one of the
    seven names, whose [properties] maps names to schemas, whose [required]
    is a sequence of names, whose [items] is a schema and whose
    [uniqueItems] is a boolean; other keys are ignored ([jsonschema]
    itself is not part of the sources). *)
Fixpoint check_schema (schema : value) : bool :=
  match schema with
  | Mapping keywords =>
      forallb
        (fun kw =>
           if String.eqb (fst kw) "type" then
             match snd kw with
             | String_ t => is_known_type t
             | _ => false
             end
           else if String.eqb (fst kw) "properties" then
             match snd kw with
             | Mapping props => forallb (fun p => check_schema (snd p)) props
             | _ => false
             end
           else if String.eqb (fst kw) "required" then
             match snd kw with
             | Sequence names =>
                 forallb (fun n => match n with String_ _ => true | _ => false end)
                         names
             | _ => false
             end
           else if String.eqb (fst kw) "items" then check_schema (snd kw)
           else if String.eqb (fst kw) "uniqueItems" then
             match snd kw with
             | Boolean _ => true
             | _ => false
             end
           else true)
        keywords
  | _ => false
  end.

(** [a] when it holds a violation, else [b]. *)
Definition or_else (a b : option violation) : option violation :=
  match a with
  | Some e => Some e
  | None => b
  end.

Definition type_message (t : string) : string :=
  "is not of type '" ++ t ++ "'".

Definition required_message (name : string) : string :=
  "'" ++ name ++ "' is a required property".

Definition unique_message : string := "has non-unique elements".

(** Modelled from the spec: step 1 of section 4.2, the [type] keyword: a
    mismatch is reported at the current path. *)
Definition type_violation (keywords : list (string * value)) (doc : value)
           (path : list segment) : option violation :=
  match lookup "type" keywords with
  | Some (String_ t) =>
      if type_matches t doc then None else Some (path, type_message t)
  | _ => None
  end.

(** The names under [required]. *)
Definition required_names (keywords : list (string * value)) : list string :=
  match lookup "required" keywords with
  | Some (Sequence names) =>
      flat_map (fun n => match n with String_ s => [s] | _ => [] end) names
  | _ => []
  end.

(** The required names that are not keys of the mapping, in the order of
    the [required] list. *)
Definition missing (keywords entries : list (string * value)) : list string :=
  filter (fun name => negb (has_key name entries)) (required_names keywords).

(** Modelled from the spec: step 2 of section 4.2, the [required] keyword:
    the first missing name is reported at the current path. *)
Definition required_violation (keywords entries : list (string * value))
           (path : list segment) : option violation :=
  first_some
    (fun name =>
       if has_key name entries then None
       else Some (path, required_message name))
    (required_names keywords).

(** Modelled from the spec: step 5 of section 4.2, the [uniqueItems]
    keyword: a duplicate is reported at the current path. *)
Definition unique_violation (keywords : list (string * value))
           (elements : list value) (path : list segment) : option violation :=
  match lookup "uniqueItems" keywords with
  | Some (Boolean true) =>
      if has_duplicate elements then Some (path, unique_message) else None
  | _ => None
  end.

(** Modelled from the spec: the fail-fast walk of section 4.2, steps 1 to
    5 at every node, children visited in document order with the path
    extended by the key or the index ([jsonschema] itself is not part of
    the sources).  The result is the first violation met, if any. *)
Fixpoint first_violation (doc schema : value) (path : list segment)
         {struct doc} : option violation :=
  match schema with
  | Mapping keywords =>
      or_else (type_violation keywords doc path)
        match doc with
        | Mapping entries =>
            or_else (required_violation keywords entries path)
              match lookup "properties" keywords with
              | Some (Mapping props) =>
                  first_some
                    (fun entry =>
                       match lookup (fst entry) props with
                       | Some sub =>
                           first_violation (snd entry) sub
                                           (path ++l [Key (fst entry)])
                       | None => None
                       end)
                    entries
              | _ => None
              end
        | Sequence elements =>
            or_else
              match lookup "items" keywords with
              | Some sub =>
                  first_indexed
                    (fun i element =>
                       first_violation element sub (path ++l [Index i]))
                    0 elements
              | None => None
              end
              (unique_violation keywords elements path)
        | _ => None
        end
  | _ => None
  end.

Section Validate.

(** The text of a [SchemaError] for a given schema; the spec leaves it
    open. *)
Variable schema_error_text : value -> string.

(** Modelled from the spec: [jsonschema.validate], the call that decides
    every validation outcome and is not part of the sources: a schema
    that is not structurally a schema fails the call with the
    invalid-schema error, otherwise the first violation of the walk is
    raised as the validation error, otherwise the call returns. *)
Definition validate (instance schema : value) : result unit :=
  if check_schema schema then
    match first_violation instance schema [] with
    | Some (e_path, e_message) => Raise (ValidationError e_message e_path)
    | None => Return tt
    end
  else Raise (SchemaError (schema_error_text schema)).

End Validate.

(** Modelled from the spec: every violation of a document, in the
    traversal order of section 4.2: the type
    mismatch of a node alone, else every missing required name, then the
    violations of the properties in document order, then those of the
    elements in index order, then the duplicate. *)
Fixpoint violations (doc schema : value) (path : list segment)
         {struct doc} : list violation :=
  match schema with
  | Mapping keywords =>
      match type_violation keywords doc path with
      | Some e => [e]
      | None =>
          match doc with
          | Mapping entries =>
              map (fun name => (path, required_message name))
                  (missing keywords entries)
              ++l
              match lookup "properties" keywords with
              | Some (Mapping props) =>
                  flat_map
                    (fun entry =>
                       match lookup (fst entry) props with
                       | Some sub =>
                           violations (snd entry) sub
                                      (path ++l [Key (fst entry)])
                       | None => []
                       end)
                    entries
              | _ => []
              end
          | Sequence elements =>
              match lookup "items" keywords with
              | Some sub =>
                  flat_indexed
                    (fun i element =>
                       violations element sub (path ++l [Index i]))
                    0 elements
              | None => []
              end
              ++l
              match unique_violation keywords elements path with
              | Some e => [e]
              | None => []
              end
          | _ => []
          end
      end
  | _ => []
  end.

(** Modelled from the spec: what it is for a document to have the shape a
    schema declares, in the words of sections 3 and 4.2: the kind named by [type]; every name under
    [required] a key of the mapping; every property that is declared and
    present of the shape its schema declares; every element of a sequence
    of the shape [items] declares; the elements pairwise distinct by value
    under [uniqueItems]. *)
Fixpoint conforms (doc schema : value) {struct doc} : Prop :=
  match schema with
  | Mapping keywords =>
      (forall t, lookup "type" keywords = Some (String_ t) ->
                 type_matches t doc = true)
      /\ match doc with
         | Mapping entries =>
             (forall name, In name (required_names keywords) ->
                           has_key name entries = true)
             /\ (forall props,
                    lookup "properties" keywords = Some (Mapping props) ->
                    every (fun entry =>
                             forall sub,
                               lookup (fst entry) props = Some sub ->
                               conforms (snd entry) sub)
                          entries)
         | Sequence elements =>
             (forall sub,
                 lookup "items" keywords = Some sub ->
                 every (fun element => conforms element sub) elements)
             /\ (lookup "uniqueItems" keywords = Some (Boolean true) ->
                 ForallOrdPairs (fun x y => value_eqb x y = false) elements)
         | _ => True
         end
  | _ => True
  end.

(** The error dictionary [validate_config] builds from a violation. *)
Definition render (v : violation) : error_info :=
  mk_error (snd v) (Str.join "." (map str_segment (fst v))).

End Jsonschema.

(** ** What the walk comes to before any violation *)

(** Modelled from the spec: [reaches doc schema path node node_schema
    node_path] says that the walk of section 4.2, started on [doc] against
    [schema] at [path], comes to [node], checked against [node_schema] at
    [node_path], without having met a violation: on the way down every
    mapping or sequence is of the declared type, every mapping has its
    required names, and the properties and the elements that come before
    the one the walk descends into have the shape their schema declares.
    The path grows by the key or the index of each step. *)
Inductive reaches
  : value -> value -> list segment -> value -> value -> list segment -> Prop :=
| reaches_here (doc schema : value) (path : list segment) :
    reaches doc schema path doc schema path
| reaches_property (keywords props before : list (string * value))
                   (key : string) (child : value)
                   (after : list (string * value)) (sub : value)
                   (path : list segment)
                   (node node_schema : value) (node_path : list segment) :
    (forall t, lookup "type" keywords = Some (String_ t) ->
               Jsonschema.type_matches
                 t (Mapping (before ++l (key, child) :: after)) = true) ->
    (forall name, In name (Jsonschema.required_names keywords) ->
                  has_key name (before ++l (key, child) :: after) = true) ->
    lookup "properties" keywords = Some (Mapping props) ->
    (forall entry sub',
        In entry before ->
        lookup (fst entry) props = Some sub' ->
        Jsonschema.conforms (snd entry) sub') ->
    lookup key props = Some sub ->
    reaches child sub (path ++l [Key key]) node node_schema node_path ->
    reaches (Mapping (before ++l (key, child) :: after)) (Mapping keywords) path
            node node_schema node_path
| reaches_item (keywords : list (string * value)) (sub : value)
               (before : list value) (child : value) (after : list value)
               (path : list segment)
               (node node_schema : value) (node_path : list segment) :
    (forall t, lookup "type" keywords = Some (String_ t) ->
               Jsonschema.type_matches
                 t (Sequence (before ++l child :: after)) = true) ->
    lookup "items" keywords = Some sub ->
    (forall element, In element before -> Jsonschema.conforms element sub) ->
    reaches child sub (path ++l [Index (List.length before)])
            node node_schema node_path ->
    reaches (Sequence (before ++l child :: after)) (Mapping keywords) path
            node node_schema node_path.

(** ** The sample documents of the source and of the scenarios *)

Module Sample.

Definition strings (l : list string) : value := Sequence (map String_ l).

(** The schema written by the [__main__] block, lines 215-235. *)
Definition schema_data : value :=
  Mapping
    [("type", String_ "object");
     ("properties",
      Mapping
        [("service_accounts",
          Mapping
            [("type", String_ "array");
             ("items",
              Mapping
                [("type", String_ "object");
                 ("properties",
                  Mapping
                    [("name", Mapping [("type", String_ "string")]);
                     ("permissions",
                      Mapping
                        [("type", String_ "array");
                         ("items", Mapping [("type", String_ "string")]);
                         ("uniqueItems", Boolean true)])]);
                 ("required", strings ["name"; "permissions"])])])]);
     ("required", strings ["service_accounts"])].

Definition account (name : string) (permissions : list string) : value :=
  Mapping [("name", String_ name); ("permissions", strings permissions)].

(** The configuration written by the [__main__] block, lines 198-209. *)
Definition config_data : value :=
  Mapping
    [("service_accounts",
      Sequence [account "web_server" ["read"; "write"; "execute"];
                account "database_server" ["read"; "write"; "admin"]])].

Definition scenario_a : value :=
  Mapping [("service_accounts", Sequence [account "web_server" ["read"; "write"]])].

Definition scenario_b : value :=
  Mapping [("service_accounts",
            Sequence [Mapping [("name", String_ "web_server")]])].

Definition scenario_c : value :=
  Mapping [("service_accounts", Sequence [account "x" ["read"; "read"]])].

(** The library with a fixed text for an invalid schema. *)
Definition jsonschema_validate : value -> value -> result unit :=
  Jsonschema.validate (fun _ => "schema is not valid").

End Sample.

(** ** The text of a report *)

(** The two lines of one error. *)
Definition entry_text (error : error_info) : string :=
  "  - Path: " ++ path error ++ Str.nl ++ "    Message: " ++ message error ++ Str.nl.

Definition header : string := "Configuration validation failed:" ++ Str.nl.

(** The lines of all the errors, in order. *)
Definition body (errors : list error_info) : string :=
  fold_right (fun error rest => entry_text error ++ rest) "" errors.

(** ** A small file system *)

Module Files.

(** A directory with a readable [accounts.toml], a configuration and a
    schema in JSON, a [secret.toml] that exists but may not be read, and
    nothing else. *)
Definition open_read (file : string) : result string :=
  if String.eqb file "accounts.toml" then Return "name = 'web_server'"
  else if String.eqb file "config.json" then Return "<scenario A>"
  else if String.eqb file "schema.json" then Return "<sample schema>"
  else if String.eqb file "secret.toml" then
    Raise (OtherException "[Errno 13] Permission denied: 'secret.toml'")
  else Raise (FileNotFoundError
                ("[Errno 2] No such file or directory: '" ++ file ++ "'")).

(** A YAML parser that accepts nothing. *)
Definition yaml_safe_load (text : string) : result value :=
  Raise (YAMLError "could not determine a constructor").

(** A JSON parser that knows the two documents of the directory. *)
Definition json_load (text : string) : result value :=
  if String.eqb text "<scenario A>" then Return Sample.scenario_a
  else if String.eqb text "<sample schema>" then Return Sample.schema_data
  else Raise (JSONDecodeError "Expecting value: line 1 column 1 (char 0)").

(** A command line of the two positional arguments parses; [-h] alone
    prints the help and ends the process with status 0; anything else is a
    usage error, status 2. *)
Definition setup_argparse (argv : list string) : parsed :=
  match argv with
  | [config; schema] => Args (mk_args config schema "INFO" None)
  | ["-h"] => Exit 0
  | _ => Exit 2
  end.

(** A terminal that shows whatever is printed. *)
Definition print_stdout (text : string) : printed := Printed.

(** A disk that is full. *)
Definition open_write (file text : string) : result unit :=
  Raise (OtherException "[Errno 28] No space left on device").

End Files.

(** ** The script: what runs before [main] *)

Section Script.

Variable yaml_safe_load json_load : string -> result value.
Variable jsonschema_validate : value -> value -> result unit.
Variable open_write : string -> string -> result unit.
Variable print_stdout : string -> printed.
Variable setup_argparse : list string -> parsed.

(** [yaml.dump(data, f)] and [json.dump(data, f, indent=4)]: the text each
    writes. *)
Variable yaml_dump json_dump : value -> string.

(** What [open(name, 'r')] gives once [text] has been written to [file];
    names are compared as they are spelled. *)
Definition written (open_read : string -> result string) (file text : string)
  : string -> result string :=
  fun name => if String.eqb name file then Return text else open_read name.

(** The block under [if __name__ == "__main__":], lines 193-243: the sample
    configuration is written to [config.yaml], the sample schema to
    [schema.json], then [main] runs.  The two writes are outside any [try]:
    when one raises, the process ends with the traceback and status 1. *)
Definition script (open_read : string -> result string) (argv : list string)
  : list event * Z :=
  match open_write "config.yaml" (yaml_dump Sample.config_data) with
  | Raise _ => ([], 1%Z)
  | Return _ =>
      let disk1 := written open_read "config.yaml" (yaml_dump Sample.config_data) in
      match open_write "schema.json" (json_dump Sample.schema_data) with
      | Raise _ => ([], 1%Z)
      | Return _ =>
          let disk2 := written disk1 "schema.json" (json_dump Sample.schema_data) in
          main disk2 yaml_safe_load json_load jsonschema_validate
               open_write print_stdout setup_argparse argv
      end
  end.

End Script.

(** ** A second directory, writable *)

Module Disk.

(** An older [config.yaml], a YAML file that does not parse, a JSON
    configuration with an account that lacks its permissions, and the sample
    schema. *)
Definition open_read (file : string) : result string :=
  if String.eqb file "config.yaml" then Return "<an older configuration>"
  else if String.eqb file "broken.yaml" then Return "{"
  else if String.eqb file "faulty.json" then Return "<scenario B>"
  else if String.eqb file "schema.json" then Return "<sample schema>"
  else Raise (FileNotFoundError
                ("[Errno 2] No such file or directory: '" ++ file ++ "'")).

Definition yaml_dump (data : value) : string :=
  if Jsonschema.value_eqb data Sample.config_data
  then "<sample configuration>" else "<another document>".

Definition json_dump (data : value) : string :=
  if Jsonschema.value_eqb data Sample.schema_data
  then "<sample schema>" else "<another document>".

Definition yaml_safe_load (text : string) : result value :=
  if String.eqb text "<sample configuration>" then Return Sample.config_data
  else Raise (YAMLError "while parsing a flow node").

Definition json_load (text : string) : result value :=
  if String.eqb text "<scenario B>" then Return Sample.scenario_b
  else if String.eqb text "<sample schema>" then Return Sample.schema_data
  else Raise (JSONDecodeError "Expecting value: line 1 column 1 (char 0)").

(** Every write succeeds. *)
Definition open_write (file text : string) : result unit := Return tt.

(** Standard output is a pipe whose reader has gone. *)
Definition closed_pipe (text : string) : printed :=
  Stream_error "[Errno 32] Broken pipe".

(** Nothing can be written. *)
Definition read_only (file text : string) : result unit :=
  Raise (OtherException "[Errno 30] Read-only file system").

End Disk.

(** * Properties *)

(** ** Strings *)

Lemma append_assoc (a b c : string) : (a ++ b) ++ c = a ++ (b ++ c).
Proof.
  induction a as [|x a IH]; simpl; [reflexivity|].
  now rewrite IH.
Qed.

Lemma append_empty_r (a : string) : a ++ "" = a.
Proof.
  induction a as [|x a IH]; simpl; [reflexivity|].
  now rewrite IH.
Qed.

(** A character that is not in the pattern ends every match that reaches it. *)
Lemma startswith_sep (pat a b : string) (c : ascii) :
  Str.mem c pat = false ->
  Str.startswith pat (a ++ String c b) = Str.startswith pat a.
Proof.
  revert a.
  induction pat as [|p pat IH]; intros a Hc; [now destruct a|].
  simpl in Hc. apply orb_false_iff in Hc. destruct Hc as [Hp Hrest].
  destruct a as [|x a]; simpl.
  - rewrite Ascii.eqb_sym, Hp. reflexivity.
  - rewrite (IH a Hrest). reflexivity.
Qed.

Lemma occurrences_sep (pat a b : string) (c : ascii) :
  Str.mem c pat = false ->
  Str.occurrences pat (a ++ String c b)
  = Str.occurrences pat a + Str.occurrences pat (String c b).
Proof.
  intros Hc.
  induction a as [|x a IH]; [reflexivity|].
  assert (Hstep : forall s,
             Str.occurrences pat (String x s)
             = (if Str.startswith pat (String x s) then 1 else 0)
               + Str.occurrences pat s) by reflexivity.
  change (String x a ++ String c b) with (String x (a ++ String c b)).
  rewrite (Hstep (a ++ String c b)), (Hstep a), IH.
  change (String x (a ++ String c b)) with (String x a ++ String c b).
  rewrite (startswith_sep pat (String x a) b c Hc).
  now rewrite Nat.add_assoc.
Qed.

(** ** The report *)

Lemma report_loop (errors : list error_info) (report : string) :
  fold_left report_step errors report = report ++ body errors.
Proof.
  revert report.
  induction errors as [|e rest IH]; intros report.
  - simpl. now rewrite append_empty_r.
  - change (fold_left report_step (e :: rest) report)
      with (fold_left report_step rest (report_step report e)).
    change (body (e :: rest)) with (entry_text e ++ body rest).
    rewrite IH. unfold report_step, entry_text.
    repeat rewrite append_assoc. reflexivity.
Qed.

Lemma generate_report_failed (e : error_info) (rest : list error_info) :
  generate_report (e :: rest) = header ++ body (e :: rest).
Proof.
  unfold generate_report. now rewrite report_loop.
Qed.

(** One entry adds one occurrence of [Path:] when neither its path nor its
    message holds one. *)
Lemma occurrences_entry (error : error_info) (rest : string) :
  Str.occurrences "Path:" (path error) = 0 ->
  Str.occurrences "Path:" (message error) = 0 ->
  Str.occurrences "Path:" (entry_text error ++ rest)
  = S (Str.occurrences "Path:" rest).
Proof.
  intros Hp Hm. unfold entry_text, Str.nl.
  repeat rewrite append_assoc.
  cbn.
  rewrite occurrences_sep, Hp by reflexivity. cbn.
  rewrite occurrences_sep, Hm by reflexivity. cbn.
  reflexivity.
Qed.

Lemma occurrences_absent (pat s : string) :
  Str.contains pat s = false -> Str.occurrences pat s = 0.
Proof.
  induction s as [|c s IH]; [reflexivity|].
  cbn [Str.contains Str.occurrences].
  intros H. apply orb_false_iff in H. destruct H as [Hhere Hrest].
  now rewrite Hhere, (IH Hrest).
Qed.

Lemma occurrences_body (errors : list error_info) :
  (forall e, In e errors ->
             Str.contains "Path:" (path e) = false /\
             Str.contains "Path:" (message e) = false) ->
  Str.occurrences "Path:" (body errors) = List.length errors.
Proof.
  induction errors as [|e rest IH]; intros Hfree; [reflexivity|].
  change (body (e :: rest)) with (entry_text e ++ body rest).
  destruct (Hfree e (or_introl eq_refl)) as [Hp Hm].
  rewrite occurrences_entry by now apply occurrences_absent.
  rewrite IH; [reflexivity|].
  intros e' He'. apply Hfree. now right.
Qed.

(** C2, as amended. [generate_report] of the empty list is the fixed success
    message; of a non-empty list it is the header followed, for each error in
    order, by its [Path:] line and its [Message:] line; and the report holds
    exactly as many occurrences of [Path:] as there are errors provided no
    path and no message itself contains [Path:]. *)
Theorem generate_report_spec (errors : list error_info) :
  generate_report [] = "Configuration validation successful. No issues found."
  /\ (errors <> [] ->
      generate_report errors
      = ("Configuration validation failed:" ++ Str.nl)
        ++ fold_right
             (fun error rest =>
                ("  - Path: " ++ path error ++ Str.nl ++
                 "    Message: " ++ message error ++ Str.nl) ++ rest)
             "" errors)
  /\ ((forall e, In e errors ->
                 Str.contains "Path:" (path e) = false /\
                 Str.contains "Path:" (message e) = false) ->
      Str.occurrences "Path:" (generate_report errors) = List.length errors).
Proof.
  split; [reflexivity|]. split.
  - destruct errors as [|e rest]; [congruence|].
    intros _. apply generate_report_failed.
  - intros Hfree. destruct errors as [|e rest]; [reflexivity|].
    rewrite generate_report_failed. unfold header, Str.nl.
    cbn [append]. cbn -[body].
    now apply occurrences_body.
Qed.

Lemma generate_report_spec_witness :
  generate_report [mk_error "is not of type 'object'" ""; mk_error "has non-unique elements" "a.0"]
  = ("Configuration validation failed:" ++ Str.nl)
    ++ ("  - Path: " ++ Str.nl ++ "    Message: is not of type 'object'" ++ Str.nl)
    ++ ("  - Path: a.0" ++ Str.nl ++ "    Message: has non-unique elements" ++ Str.nl)
  /\ Str.occurrences "Path:"
       (generate_report [mk_error "is not of type 'object'" "";
                         mk_error "has non-unique elements" "a.0"]) = 2.
Proof.
  pose proof (generate_report_spec
                [mk_error "is not of type 'object'" "";
                 mk_error "has non-unique elements" "a.0"]) as [_ [Hshape Hcount]].
  split.
  - rewrite Hshape by discriminate. reflexivity.
  - apply Hcount. intros e [<- | [<- | []]]; split; reflexivity.
Defined.

(** C2, as stated, fails: a message that itself contains [Path:] (the one
    for a required property of that name) adds an occurrence. *)
Lemma generate_report_counts_message_text :
  ~ (forall errors : list error_info,
        Str.occurrences "Path:" (generate_report errors) = List.length errors).
Proof.
  intros H.
  specialize (H [mk_error "'Path:' is a required property" ""]).
  vm_compute in H. discriminate H.
Qed.

(** ** Loading *)

Section Loading.

Variable open_read : string -> result string.
Variable yaml_safe_load json_load : string -> result value.

(** C5. A file that opens and whose name ends in none of [.yaml], [.yml],
    [.json] makes [load_config] raise the unsupported-format [ValueError],
    whatever the file holds and whatever the parsers would do with it; and
    a run on such a configuration file logs that error and exits 1 without
    depending on the validator or the schema file in any way. *)
Theorem load_config_unsupported_format (file text : string) :
  open_read file = Return text ->
  Str.endswith file ".yaml" = false ->
  Str.endswith file ".yml" = false ->
  Str.endswith file ".json" = false ->
  load_config open_read yaml_safe_load json_load file
  = Raise (ValueError
             "Error loading configuration file: Unsupported file format.  Must be YAML or JSON.")
  /\ forall jsonschema_validate open_write print_stdout args,
      config_file args = file ->
      main_with_args open_read yaml_safe_load json_load jsonschema_validate
                     open_write print_stdout args
      = ([Log "INFO" "Starting chv-ServiceAccountPrivilegeChecker...";
          Log "ERROR"
              "Error loading configuration file: Unsupported file format.  Must be YAML or JSON."],
         1%Z).
Proof.
  intros Hopen Hyaml Hyml Hjson.
  assert (Hload : load_config open_read yaml_safe_load json_load file
                  = Raise (ValueError
                             "Error loading configuration file: Unsupported file format.  Must be YAML or JSON.")).
  { unfold load_config, load_config_body.
    rewrite Hopen, Hyaml, Hyml, Hjson. reflexivity. }
  split; [exact Hload|].
  intros validate write print args Hfile.
  unfold main_with_args. rewrite Hfile, Hload. reflexivity.
Qed.

(** C10, as amended. A path at which [open] raises [FileNotFoundError]
    makes [load_config] raise [FileNotFoundError] naming the path,
    whatever its extension: [open] comes before any test of the suffix. *)
Theorem load_config_missing_file (file os_text : string) :
  open_read file = Raise (FileNotFoundError os_text) ->
  load_config open_read yaml_safe_load json_load file
  = Raise (FileNotFoundError ("Configuration file not found: " ++ file)).
Proof.
  intros Hopen. unfold load_config, load_config_body.
  now rewrite Hopen.
Qed.

(** A path that exists and cannot be opened takes the other [except]
    clause. *)
Lemma load_config_open_failure (file os_text : string) :
  open_read file = Raise (OtherException os_text) ->
  load_config open_read yaml_safe_load json_load file
  = Raise (ValueError ("Error loading configuration file: " ++ os_text)).
Proof.
  intros Hopen. unfold load_config, load_config_body.
  now rewrite Hopen.
Qed.

End Loading.

Lemma load_config_unsupported_format_witness :
  load_config Files.open_read Files.yaml_safe_load Files.json_load "accounts.toml"
  = Raise (ValueError
             "Error loading configuration file: Unsupported file format.  Must be YAML or JSON.").
Proof.
  exact (proj1 (load_config_unsupported_format
                  Files.open_read Files.yaml_safe_load Files.json_load
                  "accounts.toml" "name = 'web_server'"
                  eq_refl eq_refl eq_refl eq_refl)).
Defined.

Lemma load_config_missing_file_witness :
  load_config Files.open_read Files.yaml_safe_load Files.json_load "absent.toml"
  = Raise (FileNotFoundError "Configuration file not found: absent.toml").
Proof.
  exact (load_config_missing_file
           Files.open_read Files.yaml_safe_load Files.json_load
           "absent.toml" "[Errno 2] No such file or directory: 'absent.toml'"
           eq_refl).
Defined.

(** C10, as stated, fails: a file that exists and may not be read is not a
    readable file, yet [load_config] raises [ValueError] for it. *)
Lemma load_config_unreadable_is_value_error :
  ~ (forall (open_read : string -> result string)
            (yaml_safe_load json_load : string -> result value)
            (file : string),
        (forall text, open_read file <> Return text) ->
        exists m,
          load_config open_read yaml_safe_load json_load file
          = Raise (FileNotFoundError m)).
Proof.
  intros H.
  destruct (H Files.open_read Files.yaml_safe_load Files.json_load "secret.toml")
    as [m Hm].
  - intros text. discriminate.
  - vm_compute in Hm. discriminate Hm.
Qed.

(** ** The run *)

Section Run.

Variable open_read : string -> result string.
Variable yaml_safe_load json_load : string -> result value.
Variable jsonschema_validate : value -> value -> result unit.

Let load := load_config open_read yaml_safe_load json_load.
Let load_sch := load_schema open_read json_load.
Let validate := validate_config jsonschema_validate.
Let run := main_with_args open_read yaml_safe_load json_load jsonschema_validate.
Let program := main open_read yaml_safe_load json_load jsonschema_validate.

Lemma main_except_exits_1 (trace : list event) (e : exn) :
  snd (main_except trace e) = 1%Z.
Proof. destruct e; reflexivity. Qed.

(** Once the arguments are parsed the exit code is 0 or 1, and 0 exactly
    when both loads succeed, [validate_config] returns the empty list and
    the report, when it goes to standard output, is printed. *)
Lemma main_with_args_exit_code open_write print_stdout (args : namespace) :
  (snd (run open_write print_stdout args) = 0%Z
   \/ snd (run open_write print_stdout args) = 1%Z)
  /\ (snd (run open_write print_stdout args) = 0%Z <->
      exists config_data schema_data,
        load (config_file args) = Return config_data
        /\ load_sch (schema_file args) = Return schema_data
        /\ validate config_data schema_data = Return []
        /\ (given (output_file args) = None ->
            print_stdout (generate_report []) = Printed)).
Proof.
  unfold run, main_with_args.
  fold load load_sch.
  destruct (load (config_file args)) as [config_data|e] eqn:Hc.
  2:{ rewrite main_except_exits_1. split; [now right|].
      split; [discriminate|]. intros (c & s & H & _). discriminate H. }
  destruct (load_sch (schema_file args)) as [schema_data|e] eqn:Hs.
  2:{ rewrite main_except_exits_1. split; [now right|].
      split; [discriminate|]. intros (c & s & _ & H & _). discriminate H. }
  fold validate.
  destruct (validate config_data schema_data) as [errors|e] eqn:Hv.
  2:{ rewrite main_except_exits_1. split; [now right|].
      split; [discriminate|].
      intros (c & s & H1 & H2 & H3 & _).
      injection H1 as <-. injection H2 as <-.
      rewrite Hv in H3. discriminate H3. }
  destruct errors as [|error rest].
  - destruct (given (output_file args)) as [out|] eqn:Hout.
    + destruct (open_write out _); cbn [snd];
        (split; [now left|]; split; [|reflexivity]);
        intros _; exists config_data, schema_data;
        (split; [reflexivity|split; [reflexivity|split; [exact Hv|]]]);
        intros Hnone; discriminate Hnone.
    + destruct (print_stdout (generate_report [])) eqn:Hprint;
        rewrite ?main_except_exits_1; cbn [snd].
      * split; [now left|]. split; [|reflexivity].
        intros _. exists config_data, schema_data.
        split; [reflexivity|split; [reflexivity|split; [exact Hv|]]].
        intros _. reflexivity.
      * split; [now right|]. split; [discriminate|].
        intros (c & s & _ & _ & _ & Hp).
        specialize (Hp eq_refl). discriminate Hp.
      * split; [now right|]. split; [discriminate|].
        intros (c & s & _ & _ & _ & Hp).
        specialize (Hp eq_refl). discriminate Hp.
  - split.
    + right.
      destruct (given (output_file args)) as [out|];
        [destruct (open_write out _)|destruct (print_stdout _)];
        rewrite ?main_except_exits_1; reflexivity.
    + split.
      * destruct (given (output_file args)) as [out|];
          [destruct (open_write out _)|destruct (print_stdout _)];
          rewrite ?main_except_exits_1; discriminate.
      * intros (c & s & H1 & H2 & H3 & _).
        injection H1 as <-. injection H2 as <-.
        rewrite Hv in H3. discriminate H3.
Qed.

(** C3, as amended. On a command line that [setup_argparse] parses, the
    exit code of the process is 0 or 1, and it is 0 exactly when the
    configuration loads, the schema loads, [validate_config] returns the
    empty list and, when no output file is given, [print] delivers the
    report: a load failure, an invalid schema, an unexpected error, a
    non-empty list of errors and a [print] that raises all give 1. *)
Theorem main_exit_code setup_argparse open_write print_stdout
        (argv : list string) (args : namespace) :
  setup_argparse argv = Args args ->
  (snd (program open_write print_stdout setup_argparse argv) = 0%Z
   \/ snd (program open_write print_stdout setup_argparse argv) = 1%Z)
  /\ (snd (program open_write print_stdout setup_argparse argv) = 0%Z <->
      exists config_data schema_data,
        load (config_file args) = Return config_data
        /\ load_sch (schema_file args) = Return schema_data
        /\ validate config_data schema_data = Return []
        /\ (given (output_file args) = None ->
            print_stdout (generate_report []) = Printed)).
Proof.
  intros Hparsed. unfold program, main. rewrite Hparsed.
  apply main_with_args_exit_code.
Qed.

(** C8. The exit code of a run does not depend on what writing the report
    does; and when validation returned the empty list, an output file is
    given and writing to it raises, the run logs the failure at ERROR,
    still reports completion and exits 0. *)
Theorem write_failure_keeps_exit_code print_stdout (args : namespace) :
  (forall open_write open_write',
      snd (run open_write print_stdout args)
      = snd (run open_write' print_stdout args))
  /\ (forall open_write config_data schema_data out e,
         load (config_file args) = Return config_data ->
         load_sch (schema_file args) = Return schema_data ->
         validate config_data schema_data = Return [] ->
         given (output_file args) = Some out ->
         open_write out (generate_report []) = Raise e ->
         run open_write print_stdout args
         = ([Log "INFO" "Starting chv-ServiceAccountPrivilegeChecker...";
             Log "INFO" ("Configuration file loaded: " ++ config_file args);
             Log "INFO" ("Schema file loaded: " ++ schema_file args);
             Log "INFO" "Configuration validation completed.";
             Log "ERROR" ("Error writing report to file: " ++ str e);
             Log "INFO" "chv-ServiceAccountPrivilegeChecker completed successfully."],
            0%Z)).
Proof.
  split.
  - intros w w'. unfold run, main_with_args.
    destruct (load_config _ _ _ _); [|reflexivity].
    destruct (load_schema _ _ _); [|reflexivity].
    destruct (validate_config _ _ _) as [[|error rest]|];
      [| |reflexivity];
      (destruct (given (output_file args)) as [out|];
       [destruct (w out _), (w' out _)|]);
      reflexivity.
  - intros w config_data schema_data out e Hc Hs Hv Hout Hw.
    unfold run, main_with_args.
    fold load load_sch. rewrite Hc, Hs.
    fold validate. rewrite Hv, Hout, Hw. reflexivity.
Qed.

End Run.

(** ** What [validate_config] makes of the library's exceptions *)

Section Validation.

Variable jsonschema_validate : value -> value -> result unit.

(** [validate_config] never returns more than one error. *)
Lemma validate_config_at_most_one (config_data schema_data : value)
      (errors : list error_info) :
  validate_config jsonschema_validate config_data schema_data = Return errors ->
  List.length errors <= 1.
Proof.
  unfold validate_config.
  destruct (jsonschema_validate config_data schema_data) as [u|[]];
    intros H; try discriminate H; injection H as <-; simpl; lia.
Qed.

(** C7. When the library rejects the schema itself (it raises
    [SchemaError]), [validate_config] raises the [ValueError] that starts
    with [Invalid schema:] and returns no list of errors; and the validator
    of section 4.2 rejects in this way every schema that is not structurally
    a schema, whatever the document. *)
Theorem invalid_schema_is_value_error (config_data schema_data : value) :
  (forall e,
      jsonschema_validate config_data schema_data = Raise (SchemaError e) ->
      validate_config jsonschema_validate config_data schema_data
      = Raise (ValueError ("Invalid schema: " ++ e))
      /\ forall errors,
          validate_config jsonschema_validate config_data schema_data
          <> Return errors)
  /\ (forall schema_error_text,
         Jsonschema.check_schema schema_data = false ->
         validate_config (Jsonschema.validate schema_error_text)
                         config_data schema_data
         = Raise (ValueError ("Invalid schema: " ++ schema_error_text schema_data))).
Proof.
  split.
  - intros e H. unfold validate_config. rewrite H.
    split; [reflexivity|discriminate].
  - intros text Hschema. unfold validate_config, Jsonschema.validate.
    now rewrite Hschema.
Qed.

(** C9. When the library raises a validation error whose path is empty
    (the offending node is the root), [validate_config] returns the single
    error with the empty string as path, and the report of that list has a
    [Path:] line with nothing after the blank. *)
Theorem root_violation_has_empty_path (config_data schema_data : value)
        (e_message : string) :
  jsonschema_validate config_data schema_data
  = Raise (ValidationError e_message []) ->
  validate_config jsonschema_validate config_data schema_data
  = Return [mk_error e_message ""]
  /\ generate_report [mk_error e_message ""]
     = "Configuration validation failed:" ++ Str.nl
       ++ "  - Path: " ++ Str.nl
       ++ "    Message: " ++ e_message ++ Str.nl.
Proof.
  intros H. unfold validate_config. rewrite H.
  split; [reflexivity|].
  rewrite generate_report_failed. unfold header, body, entry_text.
  cbn [fold_right path message].
  repeat rewrite append_assoc. now rewrite append_empty_r.
Qed.

End Validation.

(** ** Induction on documents *)

(** A property holds of every value when it holds of the scalars, of a
    sequence whose elements have it and of a mapping whose values have it. *)
Lemma value_ind (P : value -> Prop) :
  P Null ->
  (forall b, P (Boolean b)) ->
  (forall q, P (Number q)) ->
  (forall s, P (String_ s)) ->
  (forall items, (forall x, In x items -> P x) -> P (Sequence items)) ->
  (forall entries, (forall kv, In kv entries -> P (snd kv)) -> P (Mapping entries)) ->
  forall v, P v.
Proof.
  intros HNull HBool HNum HStr HSeq HMap.
  fix IH 1.
  intros [ | b | q | s | items | entries ].
  - exact HNull.
  - apply HBool.
  - apply HNum.
  - apply HStr.
  - apply HSeq.
    induction items as [|y rest IHrest]; intros x Hx.
    + destruct Hx.
    + destruct Hx as [<- | Hx]; [apply IH | exact (IHrest x Hx)].
  - apply HMap.
    induction entries as [|[k y] rest IHrest]; intros kv Hkv.
    + destruct Hkv.
    + destruct Hkv as [<- | Hkv]; [apply IH | exact (IHrest kv Hkv)].
Qed.

(** ** Fail-fast loops and exhaustive ones *)

Section Loops.
Context {A B : Type}.

Lemma first_some_ext (f g : A -> option B) (l : list A) :
  (forall x, In x l -> f x = g x) -> first_some f l = first_some g l.
Proof.
  induction l as [|x rest IH]; intros H; [reflexivity|].
  simpl. rewrite (H x (or_introl eq_refl)).
  destruct (g x); [reflexivity|].
  apply IH. intros y Hy. apply H. now right.
Qed.

Lemma first_indexed_ext (f g : nat -> A -> option B) (l : list A) (i : nat) :
  (forall j x, In x l -> f j x = g j x) ->
  first_indexed f i l = first_indexed g i l.
Proof.
  revert i.
  induction l as [|x rest IH]; intros i H; [reflexivity|].
  simpl. rewrite (H i x (or_introl eq_refl)).
  destruct (g i x); [reflexivity|].
  apply IH. intros j y Hy. apply H. now right.
Qed.

Lemma first_some_none (f : A -> option B) (l : list A) :
  (forall x, In x l -> f x = None) -> first_some f l = None.
Proof.
  induction l as [|x rest IH]; intros H; [reflexivity|].
  simpl. rewrite (H x (or_introl eq_refl)).
  apply IH. intros y Hy. apply H. now right.
Qed.

Lemma first_indexed_none (f : nat -> A -> option B) (l : list A) (i : nat) :
  (forall j x, In x l -> f j x = None) -> first_indexed f i l = None.
Proof.
  revert i.
  induction l as [|x rest IH]; intros i H; [reflexivity|].
  simpl. rewrite (H i x (or_introl eq_refl)).
  apply IH. intros j y Hy. apply H. now right.
Qed.

Lemma first_some_none_inv (f : A -> option B) (l : list A) :
  first_some f l = None -> forall x, In x l -> f x = None.
Proof.
  induction l as [|y rest IH]; intros H x Hx; [destruct Hx|].
  simpl in H. destruct (f y) eqn:Hy; [discriminate H|].
  destruct Hx as [<- | Hx]; [exact Hy | exact (IH H x Hx)].
Qed.

Lemma first_indexed_none_inv (f : nat -> A -> option B) (l : list A) (i : nat) :
  first_indexed f i l = None -> forall x, In x l -> exists j, f j x = None.
Proof.
  revert i.
  induction l as [|y rest IH]; intros i H x Hx; [destruct Hx|].
  simpl in H. destruct (f i y) eqn:Hy; [discriminate H|].
  destruct Hx as [<- | Hx]; [now exists i | exact (IH (S i) H x Hx)].
Qed.

Lemma every_of_In (P : A -> Prop) (l : list A) :
  (forall x, In x l -> P x) -> every P l.
Proof.
  induction l as [|y rest IH]; intros H; [exact I|].
  split; [apply H; now left|].
  apply IH. intros x Hx. apply H. now right.
Qed.

Lemma hd_error_app (a b : list B) :
  hd_error (a ++l b) = match hd_error a with Some x => Some x | None => hd_error b end.
Proof. now destruct a. Qed.

Lemma hd_error_flat_map (g : A -> list B) (l : list A) :
  hd_error (flat_map g l) = first_some (fun x => hd_error (g x)) l.
Proof.
  induction l as [|x rest IH]; [reflexivity|].
  simpl. rewrite hd_error_app, IH. reflexivity.
Qed.

Lemma hd_error_flat_indexed (g : nat -> A -> list B) (l : list A) (i : nat) :
  hd_error (flat_indexed g i l) = first_indexed (fun j x => hd_error (g j x)) i l.
Proof.
  revert i.
  induction l as [|x rest IH]; intros i; [reflexivity|].
  simpl. rewrite hd_error_app, IH. reflexivity.
Qed.

Lemma every_In (P : A -> Prop) (l : list A) :
  every P l -> forall x, In x l -> P x.
Proof.
  induction l as [|y rest IH]; intros H x Hx; [destruct Hx|].
  destruct H as [Hy Hrest].
  destruct Hx as [<- | Hx]; [exact Hy | exact (IH Hrest x Hx)].
Qed.
End Loops.

(** ** The walk of the validator *)

Module JsonschemaFacts.
Import Jsonschema.

(** The first missing name is the head of the missing names. *)
Lemma required_violation_head (keywords entries : list (string * value))
      (path : list segment) :
  required_violation keywords entries path
  = hd_error (map (fun name => (path, required_message name))
                  (missing keywords entries)).
Proof.
  unfold required_violation, missing.
  induction (required_names keywords) as [|name rest IH]; [reflexivity|].
  simpl. destruct (has_key name entries); simpl; [exact IH | reflexivity].
Qed.

(** The fail-fast walk returns the head of the exhaustive one. *)
Lemma first_violation_head (doc : value) :
  forall schema path,
    first_violation doc schema path = hd_error (violations doc schema path).
Proof.
  induction doc as [ | b | q | s | items IH | entries IH ] using value_ind;
    intros [ | | | | | keywords ] path; try reflexivity;
    cbn [first_violation violations];
    destruct (type_violation keywords _ path) as [e|]; try reflexivity;
    cbn [or_else].
  - rewrite hd_error_app.
    destruct (lookup "items" keywords) as [sub|].
    + rewrite hd_error_flat_indexed.
      rewrite (first_indexed_ext
                 (fun i element => first_violation element sub (path ++l [Index i]))
                 (fun i element => hd_error (violations element sub (path ++l [Index i])))).
      * unfold or_else.
        destruct (first_indexed _ 0 items); [reflexivity|].
        now destruct (unique_violation keywords items path).
      * intros j x Hx. apply IH, Hx.
    + cbn [or_else hd_error]. now destruct (unique_violation keywords items path).
  - rewrite hd_error_app, <- required_violation_head.
    unfold or_else.
    destruct (required_violation keywords entries path); [reflexivity|].
    destruct (lookup "properties" keywords) as [[ | | | | | props]|];
      try reflexivity.
    rewrite hd_error_flat_map.
    apply first_some_ext. intros kv Hkv.
    destruct (lookup (fst kv) props) as [sub|]; [|reflexivity].
    apply (IH kv Hkv).
Qed.

Lemma type_violation_object (keywords entries : list (string * value))
      (path : list segment) :
  (forall t, lookup "type" keywords = Some (String_ t) -> t = "object") ->
  type_violation keywords (Mapping entries) path = None.
Proof.
  intros Hobject. unfold type_violation.
  destruct (lookup "type" keywords) as [[ | | | t | | ]|]; try reflexivity.
  now rewrite (Hobject t eq_refl).
Qed.

Lemma conforms_no_violation (doc : value) :
  forall schema path,
    conforms doc schema -> first_violation doc schema path = None.
Proof.
  induction doc as [ | b | q | s | items IH | entries IH ] using value_ind;
    intros [ | | | | | keywords ] path; try reflexivity;
    cbn [first_violation conforms]; intros [Htype Hrest];
    (assert (Hstep1 : type_violation keywords _ path = None)
      by (unfold type_violation;
          destruct (lookup "type" keywords) as [[ | | | t | | ]|];
          try reflexivity; now rewrite (Htype t eq_refl));
     rewrite Hstep1); cbn [or_else]; try reflexivity.
  - destruct Hrest as [Hitems Hunique].
    assert (Hstep4 :
              match lookup "items" keywords with
              | Some sub =>
                  first_indexed
                    (fun i element =>
                       first_violation element sub (path ++l [Index i]))
                    0 items
              | None => None
              end = None).
    { destruct (lookup "items" keywords) as [sub|]; [|reflexivity].
      apply first_indexed_none. intros j x Hx.
      apply (IH x Hx). exact (every_In _ _ (Hitems sub eq_refl) x Hx). }
    rewrite Hstep4. cbn [or_else]. unfold unique_violation.
    destruct (lookup "uniqueItems" keywords) as [[ | [|] | | | | ]|];
      try reflexivity.
    specialize (Hunique eq_refl).
    assert (Hdup : has_duplicate items = false).
    { clear -Hunique.
      induction Hunique as [|x rest Hx _ IHrest]; [reflexivity|].
      cbn [has_duplicate]. rewrite IHrest, orb_false_r.
      apply not_true_is_false. intros Hex.
      apply existsb_exists in Hex. destruct Hex as (y & Hy & Heq).
      rewrite Forall_forall in Hx. rewrite (Hx y Hy) in Heq.
      discriminate Heq. }
    now rewrite Hdup.
  - destruct Hrest as [Hrequired Hprops].
    assert (Hstep2 : required_violation keywords entries path = None).
    { unfold required_violation. apply first_some_none.
      intros name Hname. now rewrite (Hrequired name Hname). }
    rewrite Hstep2. cbn [or_else].
    destruct (lookup "properties" keywords) as [[ | | | | | props]|];
      try reflexivity.
    apply first_some_none. intros kv Hkv.
    destruct (lookup (fst kv) props) as [sub|] eqn:Hsub; [|reflexivity].
    apply (IH kv Hkv).
    exact (every_In _ _ (Hprops props eq_refl) kv Hkv sub Hsub).
Qed.

Lemma or_else_none (a b : option violation) :
  or_else a b = None -> a = None /\ b = None.
Proof. destruct a; [discriminate|]. now split. Qed.

Lemma no_duplicate_distinct (l : list value) :
  has_duplicate l = false ->
  ForallOrdPairs (fun x y => value_eqb x y = false) l.
Proof.
  induction l as [|x rest IH]; intros H; constructor.
  - cbn [has_duplicate] in H. apply orb_false_iff in H.
    destruct H as [Hx _]. apply Forall_forall. intros y Hy.
    apply not_true_is_false. intros Heq.
    assert (Hex : existsb (value_eqb x) rest = true)
      by (apply existsb_exists; now exists y).
    rewrite Hex in Hx. discriminate Hx.
  - apply IH. cbn [has_duplicate] in H. apply orb_false_iff in H. tauto.
Qed.

(** The walk finds nothing only in a document of the declared shape. *)
Lemma no_violation_conforms (doc : value) :
  forall schema path,
    first_violation doc schema path = None -> conforms doc schema.
Proof.
  induction doc as [ | b | q | s | items IH | entries IH ] using value_ind;
    intros [ | | | | | keywords ] path; try (intros _; exact I);
    cbn [first_violation conforms]; intros H;
    apply or_else_none in H; destruct H as [Htype Hrest];
    (split;
     [ intros t Ht; unfold type_violation in Htype; rewrite Ht in Htype;
       match type of Htype with
       | (if ?c then _ else _) = _ => destruct c; [reflexivity|discriminate Htype]
       end
     | ]); try exact I.
  - apply or_else_none in Hrest. destruct Hrest as [Hitems Hunique]. split.
    + intros sub Hsub. rewrite Hsub in Hitems.
      apply every_of_In. intros x Hx.
      destruct (first_indexed_none_inv _ _ _ Hitems x Hx) as [j Hj].
      exact (IH x Hx sub _ Hj).
    + intros Hflag. unfold unique_violation in Hunique.
      rewrite Hflag in Hunique. apply no_duplicate_distinct.
      destruct (has_duplicate items); [discriminate Hunique|reflexivity].
  - apply or_else_none in Hrest. destruct Hrest as [Hrequired Hprops]. split.
    + intros name Hname.
      pose proof (first_some_none_inv _ _ Hrequired name Hname) as Hkey.
      cbv beta in Hkey.
      destruct (has_key name entries); [reflexivity|discriminate Hkey].
    + intros props Hlookup. rewrite Hlookup in Hprops.
      apply every_of_In. intros kv Hkv sub Hsub.
      pose proof (first_some_none_inv _ _ Hprops kv Hkv) as Hnone.
      cbv beta in Hnone. rewrite Hsub in Hnone.
      exact (IH kv Hkv sub _ Hnone).
Qed.

End JsonschemaFacts.

(** ** The way down to a node *)

Section LoopsOnPrefix.
Context {A B : Type}.

Lemma first_some_app (f : A -> option B) (before rest : list A) :
  (forall x, In x before -> f x = None) ->
  first_some f (before ++l rest) = first_some f rest.
Proof.
  induction before as [|x before IH]; intros Hnone; [reflexivity|].
  cbn [app first_some]. rewrite (Hnone x (or_introl eq_refl)).
  apply IH. intros y Hy. apply Hnone. now right.
Qed.

Lemma first_indexed_app (f : nat -> A -> option B) (before rest : list A) :
  forall i,
    (forall j x, In x before -> f j x = None) ->
    first_indexed f i (before ++l rest)
    = first_indexed f (i + List.length before) rest.
Proof.
  induction before as [|x before IH]; intros i Hnone.
  - cbn [app List.length]. now rewrite Nat.add_0_r.
  - cbn [app first_indexed List.length].
    rewrite (Hnone i x (or_introl eq_refl)).
    rewrite IH by (intros j y Hy; apply Hnone; now right).
    f_equal. lia.
Qed.
End LoopsOnPrefix.

Lemma type_violation_matches (keywords : list (string * value)) (doc : value)
      (path : list segment) :
  (forall t, lookup "type" keywords = Some (String_ t) ->
             Jsonschema.type_matches t doc = true) ->
  Jsonschema.type_violation keywords doc path = None.
Proof.
  intros Htype. unfold Jsonschema.type_violation.
  destruct (lookup "type" keywords) as [[ | | | t | | ]|]; try reflexivity.
  now rewrite (Htype t eq_refl).
Qed.

(** A violation met at a node the walk reaches is the violation of the
    whole walk. *)
Lemma walk_reaches (doc schema : value) (path : list segment)
      (node node_schema : value) (node_path : list segment) :
  reaches doc schema path node node_schema node_path ->
  forall e,
    Jsonschema.first_violation node node_schema node_path = Some e ->
    Jsonschema.first_violation doc schema path = Some e.
Proof.
  induction 1 as [ doc schema path
                 | keywords props before key child after sub path
                            node node_schema node_path
                            Htype Hrequired Hprops Hbefore Hsub _ IH
                 | keywords sub before child after path
                            node node_schema node_path
                            Htype Hitems Hbefore _ IH ];
    intros e He.
  - exact He.
  - cbn [Jsonschema.first_violation].
    rewrite (type_violation_matches _ _ path Htype).
    cbn [Jsonschema.or_else].
    assert (Hstep2 : Jsonschema.required_violation
                       keywords (before ++l (key, child) :: after) path = None).
    { unfold Jsonschema.required_violation. apply first_some_none.
      intros name Hname. now rewrite (Hrequired name Hname). }
    rewrite Hstep2, Hprops. cbn [Jsonschema.or_else].
    rewrite first_some_app.
    + cbn [first_some fst snd]. rewrite Hsub. now rewrite (IH e He).
    + intros entry Hentry.
      destruct (lookup (fst entry) props) as [sub'|] eqn:Hsub'; [|reflexivity].
      apply JsonschemaFacts.conforms_no_violation.
      exact (Hbefore entry sub' Hentry Hsub').
  - cbn [Jsonschema.first_violation].
    rewrite (type_violation_matches _ _ path Htype).
    cbn [Jsonschema.or_else]. rewrite Hitems.
    rewrite first_indexed_app.
    + cbn [first_indexed Nat.add]. now rewrite (IH e He).
    + intros j element Helement.
      apply JsonschemaFacts.conforms_no_violation.
      exact (Hbefore element Helement).
Qed.

(** ** The validator as a whole *)

Section SpecValidator.
Import Jsonschema JsonschemaFacts.

Variable schema_error_text : value -> string.

Let run_validate := validate_config (validate schema_error_text).

Lemma validate_config_head (doc schema : value) :
  check_schema schema = true ->
  run_validate doc schema
  = Return (map render (firstn 1 (violations doc schema []))).
Proof.
  intros Hschema.
  unfold run_validate, validate_config, validate.
  rewrite Hschema, JsonschemaFacts.first_violation_head.
  destruct (violations doc schema []) as [|[e_path e_message] rest];
    reflexivity.
Qed.

(** C1. Whatever the library does, [validate_config] returns at most one
    error; and with the validator of section 4.2 and a schema that is a
    schema, it returns exactly the first of the document's violations in
    the order of the walk (type, required, properties, items, uniqueItems,
    document order within each), rendered, and nothing when there is none. *)
Theorem validate_config_first_violation :
  (forall jsonschema_validate doc schema errors,
      validate_config jsonschema_validate doc schema = Return errors ->
      List.length errors <= 1)
  /\ (forall doc schema,
         check_schema schema = true ->
         run_validate doc schema
         = Return match violations doc schema [] with
                  | [] => []
                  | first :: _ => [render first]
                  end).
Proof.
  split.
  - intros lib doc schema errors. apply validate_config_at_most_one.
  - intros doc schema Hschema. rewrite (validate_config_head doc schema Hschema).
    now destruct (violations doc schema []).
Qed.

(** C6. A document that has the shape a schema declares is validated with
    the empty list of errors. *)
Theorem conforming_document_passes (doc schema : value) :
  check_schema schema = true ->
  conforms doc schema ->
  run_validate doc schema = Return [].
Proof.
  intros Hschema Hconforms.
  unfold run_validate, validate_config, validate.
  now rewrite Hschema, (conforms_no_violation doc schema [] Hconforms).
Qed.

(** At a mapping checked against a schema node that declares no type
    other than [object], the first name of the [required] list that is not
    a key of the mapping is what the walk finds there, with the path of the
    mapping itself; at the root [validate_config] returns that one error
    with the empty path. *)
Theorem first_missing_required_reported
        (keywords entries : list (string * value)) (name : string) :
  (forall t, lookup "type" keywords = Some (String_ t) -> t = "object") ->
  hd_error (missing keywords entries) = Some name ->
  (In name (required_names keywords) /\ has_key name entries = false)
  /\ (forall path,
         first_violation (Mapping entries) (Mapping keywords) path
         = Some (path, "'" ++ name ++ "' is a required property"))
  /\ (check_schema (Mapping keywords) = true ->
      run_validate (Mapping entries) (Mapping keywords)
      = Return [mk_error ("'" ++ name ++ "' is a required property") ""]).
Proof.
  intros Hobject Hfirst.
  assert (Hwalk : forall path,
             first_violation (Mapping entries) (Mapping keywords) path
             = Some (path, "'" ++ name ++ "' is a required property")).
  { intros path. cbn [first_violation].
    rewrite (type_violation_object keywords entries path Hobject).
    cbn [or_else]. rewrite JsonschemaFacts.required_violation_head.
    destruct (missing keywords entries) as [|n rest]; [discriminate|].
    injection Hfirst as ->. reflexivity. }
  split; [|split].
  - assert (Hin : In name (missing keywords entries)).
    { destruct (missing keywords entries) as [|n rest]; [discriminate|].
      injection Hfirst as ->. now left. }
    unfold missing in Hin. apply filter_In in Hin.
    destruct Hin as [Hin Hkey]. split; [exact Hin|].
    now apply negb_true_iff in Hkey.
  - exact Hwalk.
  - intros Hschema.
    unfold run_validate, validate_config, validate.
    rewrite Hschema, (Hwalk []). reflexivity.
Qed.

(** C4, as amended. Wherever in the document the walk comes, before any
    violation, to a mapping checked against a schema node that declares no
    type other than [object], and that mapping lacks a name of the node's
    [required] list, [validate_config] returns exactly one error: its
    message quotes the first name of the list that the mapping lacks, and
    its path is the dot-joined path of that mapping. *)
Theorem missing_required_reported_at_path
        (doc schema : value) (keywords entries : list (string * value))
        (path : list segment) (name : string) :
  check_schema schema = true ->
  reaches doc schema [] (Mapping entries) (Mapping keywords) path ->
  (forall t, lookup "type" keywords = Some (String_ t) -> t = "object") ->
  hd_error (missing keywords entries) = Some name ->
  (In name (required_names keywords) /\ has_key name entries = false)
  /\ run_validate doc schema
     = Return [mk_error ("'" ++ name ++ "' is a required property")
                        (Str.join "." (map str_segment path))].
Proof.
  intros Hschema Hreaches Hobject Hfirst.
  destruct (first_missing_required_reported keywords entries name
              Hobject Hfirst) as [Hmissing [Hnode _]].
  split; [exact Hmissing|].
  unfold run_validate, validate_config, validate.
  rewrite Hschema.
  now rewrite (walk_reaches _ _ _ _ _ _ Hreaches _ (Hnode path)).
Qed.

End SpecValidator.

(** ** The theorems at work *)

Lemma validate_config_first_violation_witness :
  List.length [mk_error "'permissions' is a required property" "service_accounts.0"] <= 1
  /\ validate_config Sample.jsonschema_validate Sample.scenario_b Sample.schema_data
     = Return [mk_error "'permissions' is a required property" "service_accounts.0"].
Proof.
  pose proof (validate_config_first_violation (fun _ => "schema is not valid"))
    as [Hone Hfirst].
  pose proof (Hfirst Sample.scenario_b Sample.schema_data eq_refl) as Hb.
  split; [|exact Hb].
  exact (Hone _ _ _ _ Hb).
Defined.

Lemma conforming_document_passes_witness :
  validate_config Sample.jsonschema_validate Sample.scenario_a Sample.schema_data
  = Return [].
Proof.
  apply (conforming_document_passes (fun _ => "schema is not valid")
           Sample.scenario_a Sample.schema_data eq_refl).
  apply (JsonschemaFacts.no_violation_conforms Sample.scenario_a Sample.schema_data []).
  reflexivity.
Defined.

Lemma first_missing_required_reported_witness :
  Jsonschema.first_violation
    (Mapping [("name", String_ "web_server")])
    (Mapping [("type", String_ "object");
              ("required", Sample.strings ["name"; "permissions"])])
    [Key "service_accounts"; Index 0]
  = Some ([Key "service_accounts"; Index 0], "'permissions' is a required property").
Proof.
  refine (proj1 (proj2 (first_missing_required_reported
                          (fun _ => "schema is not valid")
                          [("type", String_ "object");
                           ("required", Sample.strings ["name"; "permissions"])]
                          [("name", String_ "web_server")]
                          "permissions" _ eq_refl)) _).
  intros t Ht. cbn in Ht. now injection Ht as <-.
Defined.

Lemma invalid_schema_is_value_error_witness :
  validate_config Sample.jsonschema_validate Sample.config_data
                  (Mapping [("type", String_ "service")])
  = Raise (ValueError "Invalid schema: schema is not valid")
  /\ validate_config Sample.jsonschema_validate Sample.config_data
                     (Mapping [("type", String_ "service")])
     = Raise (ValueError "Invalid schema: schema is not valid").
Proof.
  pose proof (invalid_schema_is_value_error
                Sample.jsonschema_validate Sample.config_data
                (Mapping [("type", String_ "service")])) as [Hany Hwalk].
  split.
  - exact (proj1 (Hany "schema is not valid" eq_refl)).
  - exact (Hwalk (fun _ => "schema is not valid") eq_refl).
Defined.

Lemma root_violation_has_empty_path_witness :
  validate_config Sample.jsonschema_validate (Sequence []) Sample.schema_data
  = Return [mk_error "is not of type 'object'" ""].
Proof.
  exact (proj1 (root_violation_has_empty_path
                  Sample.jsonschema_validate (Sequence []) Sample.schema_data
                  "is not of type 'object'" eq_refl)).
Defined.

Lemma write_failure_keeps_exit_code_witness :
  snd (main_with_args Files.open_read Files.yaml_safe_load Files.json_load
            Sample.jsonschema_validate Files.open_write Files.print_stdout
            (mk_args "config.json" "schema.json" "INFO" (Some "report.txt")))
  = 0%Z.
Proof.
  pose proof (proj2 (write_failure_keeps_exit_code
                       Files.open_read Files.yaml_safe_load Files.json_load
                       Sample.jsonschema_validate Files.print_stdout
                       (mk_args "config.json" "schema.json" "INFO" (Some "report.txt")))
                    Files.open_write Sample.scenario_a Sample.schema_data
                    "report.txt"
                    (OtherException "[Errno 28] No space left on device")
                    eq_refl eq_refl eq_refl eq_refl eq_refl) as Hrun.
  exact (f_equal snd Hrun).
Defined.

Lemma main_exit_code_witness :
  snd (main Files.open_read Files.yaml_safe_load Files.json_load
            Sample.jsonschema_validate Files.open_write Files.print_stdout
            Files.setup_argparse ["config.json"; "schema.json"]) = 0%Z.
Proof.
  apply (proj2 (main_exit_code
                  Files.open_read Files.yaml_safe_load Files.json_load
                  Sample.jsonschema_validate Files.setup_argparse
                  Files.open_write Files.print_stdout
                  ["config.json"; "schema.json"]
                  (mk_args "config.json" "schema.json" "INFO" None) eq_refl)).
  exists Sample.scenario_a, Sample.schema_data.
  repeat split.
Defined.

(** With nobody reading standard output, a configuration that passes
    still ends the run with status 1: the error of [print] is logged by the
    last [except] clause. *)
Example print_failure_exits_1 :
  main Files.open_read Files.yaml_safe_load Files.json_load
       Sample.jsonschema_validate Files.open_write Disk.closed_pipe
       Files.setup_argparse ["config.json"; "schema.json"]
  = ([Log "INFO" "Starting chv-ServiceAccountPrivilegeChecker...";
      Log "INFO" "Configuration file loaded: config.json";
      Log "INFO" "Schema file loaded: schema.json";
      Log "INFO" "Configuration validation completed.";
      Log "ERROR" "An unexpected error occurred: [Errno 32] Broken pipe"],
     1%Z).
Proof. reflexivity. Qed.

(** C3, as stated, fails: a command line that [argparse] rejects ends the
    process with status 2, before anything is loaded. *)
Lemma usage_error_exits_2 :
  ~ (forall open_read yaml_safe_load json_load jsonschema_validate open_write
            print_stdout setup_argparse (argv : list string),
        snd (main open_read yaml_safe_load json_load jsonschema_validate
                  open_write print_stdout setup_argparse argv) = 0%Z
        \/ snd (main open_read yaml_safe_load json_load jsonschema_validate
                     open_write print_stdout setup_argparse argv) = 1%Z).
Proof.
  intros H.
  destruct (H Files.open_read Files.yaml_safe_load Files.json_load
              Sample.jsonschema_validate Files.open_write Files.print_stdout
              Files.setup_argparse ["config.json"])
    as [H0 | H1]; vm_compute in *; discriminate.
Qed.

(** C4, as stated, fails: of two required names that are both missing only
    the first is named by the message. *)
Lemma second_missing_name_not_reported :
  ~ (forall (keywords entries : list (string * value)) (name : string),
        In name (Jsonschema.required_names keywords) ->
        has_key name entries = false ->
        exists e rest,
          validate_config Sample.jsonschema_validate
                          (Mapping entries) (Mapping keywords)
          = Return (e :: rest)
          /\ Str.contains name (message e) = true).
Proof.
  intros H.
  destruct (H [("type", String_ "object");
               ("required", Sample.strings ["name"; "permissions"])]
              [] "permissions")
    as (e & rest & Hrun & Hnamed).
  - cbn. now right; left.
  - reflexivity.
  - vm_compute in Hrun. injection Hrun as <- <-.
    vm_compute in Hnamed. discriminate Hnamed.
Qed.

(** A root mapping checked against a node of another declared type stops
    at step 1, before [required] is looked at. *)
Example type_mismatch_hides_required :
  validate_config Sample.jsonschema_validate
                  (Mapping [])
                  (Mapping [("type", String_ "array");
                            ("required", Sample.strings ["name"])])
  = Return [mk_error "is not of type 'array'" ""].
Proof. reflexivity. Qed.

(** A required property whose name contains [Path:], end to end. *)
Example required_name_with_path_text :
  exists errors,
    validate_config Sample.jsonschema_validate
                    (Mapping [])
                    (Mapping [("required", Sample.strings ["Path:"])])
    = Return errors
    /\ List.length errors = 1
    /\ Str.occurrences "Path:" (generate_report errors) = 2.
Proof.
  eexists. split; [reflexivity|]. split; reflexivity.
Qed.

(** The four scenarios of the specification. *)
Example scenario_a_passes :
  main_with_args Files.open_read Files.yaml_safe_load Files.json_load
       Sample.jsonschema_validate Files.open_write Files.print_stdout
       (mk_args "config.json" "schema.json" "INFO" None)
  = ([Log "INFO" "Starting chv-ServiceAccountPrivilegeChecker...";
      Log "INFO" "Configuration file loaded: config.json";
      Log "INFO" "Schema file loaded: schema.json";
      Log "INFO" "Configuration validation completed.";
      Print "Configuration validation successful. No issues found.";
      Log "INFO" "chv-ServiceAccountPrivilegeChecker completed successfully."],
     0%Z).
Proof. reflexivity. Qed.

Example scenario_b_missing_permissions :
  validate_config Sample.jsonschema_validate Sample.scenario_b Sample.schema_data
  = Return [mk_error "'permissions' is a required property" "service_accounts.0"].
Proof. reflexivity. Qed.

Example scenario_c_duplicate_permission :
  validate_config Sample.jsonschema_validate Sample.scenario_c Sample.schema_data
  = Return [mk_error "has non-unique elements" "service_accounts.0.permissions"].
Proof. reflexivity. Qed.

Example scenario_d_toml :
  snd (main_with_args Files.open_read Files.yaml_safe_load Files.json_load
            Sample.jsonschema_validate Files.open_write Files.print_stdout
            (mk_args "accounts.toml" "schema.json" "INFO" None))
  = 1%Z.
Proof. reflexivity. Qed.

(** * Further properties of the program *)

(** ** Suffixes *)

Lemma substring_whole (s : string) : substring 0 (String.length s) s = s.
Proof.
  induction s as [|c s IH]; [reflexivity|].
  simpl. now rewrite IH.
Qed.

Lemma substring_suffix (p suffix : string) :
  substring (String.length p) (String.length suffix) (p ++ suffix) = suffix.
Proof.
  induction p as [|c p IH]; simpl; [apply substring_whole | exact IH].
Qed.

Lemma length_append (a b : string) :
  String.length (a ++ b) = String.length a + String.length b.
Proof.
  induction a as [|c a IH]; simpl; [reflexivity|].
  now rewrite IH.
Qed.

Lemma substring_split (s : string) :
  forall m, m <= String.length s ->
            s = substring 0 m s ++ substring m (String.length s - m) s.
Proof.
  induction s as [|c s IH]; intros m Hm.
  - destruct m; reflexivity.
  - destruct m as [|m].
    + cbn [substring append]. cbn [String.length Nat.sub].
      now rewrite substring_whole.
    + cbn [String.length] in *. cbn [substring append Nat.sub].
      f_equal. apply IH. lia.
Qed.

(** [endswith] holds exactly of the strings that are something followed by
    the suffix. *)
Lemma endswith_iff (s suffix : string) :
  Str.endswith s suffix = true <-> exists p, s = p ++ suffix.
Proof.
  unfold Str.endswith. split.
  - intros H. apply andb_true_iff in H. destruct H as [Hle Heq].
    apply Nat.leb_le in Hle. apply String.eqb_eq in Heq.
    exists (substring 0 (String.length s - String.length suffix) s).
    pose proof (substring_split s (String.length s - String.length suffix))
      as Hsplit.
    replace (String.length s - (String.length s - String.length suffix))
      with (String.length suffix) in Hsplit by lia.
    rewrite Heq in Hsplit. apply Hsplit. lia.
  - intros [p ->]. rewrite length_append.
    apply andb_true_iff. split; [apply Nat.leb_le; lia|].
    replace (String.length p + String.length suffix - String.length suffix)
      with (String.length p) by lia.
    rewrite substring_suffix. apply String.eqb_refl.
Qed.

(** The last character of a string is the last character of any suffix it
    ends with. *)
Lemma endswith_last (s suffix : string) :
  Str.endswith s suffix = true ->
  String.length suffix <> 0 ->
  String.get (String.length s - 1) s
  = String.get (String.length suffix - 1) suffix.
Proof.
  intros H Hne. apply endswith_iff in H. destruct H as [p ->].
  rewrite length_append.
  replace (String.length p + String.length suffix - 1)
    with (String.length suffix - 1 + String.length p) by lia.
  symmetry. apply append_correct2.
Qed.

Lemma json_name_is_not_yaml (file : string) :
  Str.endswith file ".json" = true ->
  Str.endswith file ".yaml" = false /\ Str.endswith file ".yml" = false.
Proof.
  intros Hjson.
  pose proof (endswith_last file ".json" Hjson) as Hn.
  split; apply not_true_is_false; intros H;
    pose proof (endswith_last file _ H) as Hl;
    cbn in Hn, Hl; rewrite Hn in Hl by discriminate;
    specialize (Hl ltac:(discriminate)); discriminate Hl.
Qed.

(** ** Loading, further *)

Section LoadingMore.

Variable open_read : string -> result string.
Variable yaml_safe_load json_load : string -> result value.

(** X1. [load_config] raises nothing but the [FileNotFoundError] that
    names the file and [ValueError]s that start with
    [Error loading configuration file:], whatever [open] and the parsers
    raise. *)
Theorem load_config_raises (file : string) (e : exn) :
  load_config open_read yaml_safe_load json_load file = Raise e ->
  e = FileNotFoundError ("Configuration file not found: " ++ file)
  \/ exists m, e = ValueError ("Error loading configuration file: " ++ m).
Proof.
  unfold load_config.
  destruct (load_config_body open_read yaml_safe_load json_load file)
    as [v|[]]; intros H; try discriminate H; injection H as <-;
    (now left) || (right; eexists; reflexivity).
Qed.

(** X2. The suffix alone selects the parser: a name that ends in [.json]
    is never handed to the YAML parser, and a name that ends in [.yaml] or
    [.yml] is never handed to the JSON parser. *)
Theorem load_config_selects_parser (file : string) :
  (Str.endswith file ".json" = true ->
   forall yaml_safe_load',
     load_config open_read yaml_safe_load json_load file
     = load_config open_read yaml_safe_load' json_load file)
  /\ (Str.endswith file ".yaml" || Str.endswith file ".yml" = true ->
      forall json_load',
        load_config open_read yaml_safe_load json_load file
        = load_config open_read yaml_safe_load json_load' file).
Proof.
  split.
  - intros Hjson yaml'.
    destruct (json_name_is_not_yaml file Hjson) as [Hyaml Hyml].
    unfold load_config, load_config_body.
    now rewrite Hyaml, Hyml.
  - intros Hyaml json'.
    unfold load_config, load_config_body.
    now rewrite Hyaml.
Qed.

(** X3. [load_config] returns a document exactly when the file opens and
    the parser its suffix selects returns that document. *)
Theorem load_config_returns (file : string) (config_data : value) :
  load_config open_read yaml_safe_load json_load file = Return config_data
  <-> exists text,
      open_read file = Return text
      /\ ((Str.endswith file ".yaml" || Str.endswith file ".yml" = true
           /\ yaml_safe_load text = Return config_data)
          \/ (Str.endswith file ".json" = true
              /\ json_load text = Return config_data)).
Proof.
  unfold load_config, load_config_body. split.
  - destruct (open_read file) as [text|[]]; try discriminate.
    destruct (Str.endswith file ".yaml" || Str.endswith file ".yml") eqn:Hy.
    + destruct (yaml_safe_load text) as [v|[]] eqn:Hparse; try discriminate.
      intros H. injection H as <-. exists text. split; [reflexivity|].
      left. now split.
    + destruct (Str.endswith file ".json") eqn:Hj; [|discriminate].
      destruct (json_load text) as [v|[]] eqn:Hparse; try discriminate.
      intros H. injection H as <-. exists text. split; [reflexivity|].
      right. now split.
  - intros (text & Hopen & [[Hy Hparse] | [Hj Hparse]]); rewrite Hopen.
    + now rewrite Hy, Hparse.
    + destruct (json_name_is_not_yaml file Hj) as [Hyaml Hyml].
      now rewrite Hyaml, Hyml, Hj, Hparse.
Qed.

(** X4. A parse error reaches the caller wrapped twice: the [ValueError]
    raised for the parser's error is itself caught by the outer
    [except Exception] clause, so the message carries both prefixes. *)
Theorem load_config_parse_error (file text e : string) :
  open_read file = Return text ->
  (Str.endswith file ".yaml" || Str.endswith file ".yml" = true ->
   yaml_safe_load text = Raise (YAMLError e) ->
   load_config open_read yaml_safe_load json_load file
   = Raise (ValueError
              ("Error loading configuration file: Error loading YAML file: " ++ e)))
  /\ (Str.endswith file ".json" = true ->
      json_load text = Raise (JSONDecodeError e) ->
      load_config open_read yaml_safe_load json_load file
      = Raise (ValueError
                 ("Error loading configuration file: Error loading JSON file: " ++ e))).
Proof.
  intros Hopen. unfold load_config, load_config_body. rewrite Hopen. split.
  - intros Hy Hparse. now rewrite Hy, Hparse.
  - intros Hj Hparse.
    destruct (json_name_is_not_yaml file Hj) as [Hyaml Hyml].
    now rewrite Hyaml, Hyml, Hj, Hparse.
Qed.

(** X5. [load_schema] does not look at the name of the file: it returns a
    schema exactly when the file opens and the JSON parser returns that
    schema, whatever the suffix. *)
Theorem load_schema_returns (file : string) (schema_data : value) :
  load_schema open_read json_load file = Return schema_data
  <-> exists text,
      open_read file = Return text /\ json_load text = Return schema_data.
Proof.
  unfold load_schema, load_schema_body. split.
  - destruct (open_read file) as [text|[]]; try discriminate.
    destruct (json_load text) as [v|[]] eqn:Hparse; try discriminate.
    intros H. injection H as <-. now exists text.
  - intros (text & Hopen & Hparse). now rewrite Hopen, Hparse.
Qed.

(** X6. [load_schema] raises nothing but the [FileNotFoundError] that names
    the file and [ValueError]s that start with [Error loading schema file:];
    a file that is missing gives the former, a file that is not JSON the
    latter with the parser's message behind both prefixes. *)
Theorem load_schema_raises (file : string) :
  (forall e,
      load_schema open_read json_load file = Raise e ->
      e = FileNotFoundError ("Schema file not found: " ++ file)
      \/ exists m, e = ValueError ("Error loading schema file: " ++ m))
  /\ (forall os_text,
         open_read file = Raise (FileNotFoundError os_text) ->
         load_schema open_read json_load file
         = Raise (FileNotFoundError ("Schema file not found: " ++ file)))
  /\ (forall text e,
         open_read file = Return text ->
         json_load text = Raise (JSONDecodeError e) ->
         load_schema open_read json_load file
         = Raise (ValueError
                    ("Error loading schema file: Error loading JSON schema: " ++ e))).
Proof.
  unfold load_schema, load_schema_body. split; [|split].
  - intros e.
    destruct (open_read file) as [text|[]];
      [destruct (json_load text) as [v|[]]|..];
      intros H; try discriminate H; injection H as <-;
      (now left) || (right; eexists; reflexivity).
  - intros os_text Hopen. now rewrite Hopen.
  - intros text e Hopen Hparse. now rewrite Hopen, Hparse.
Qed.

End LoadingMore.

(** ** Validation, further *)

Section ValidationMore.

Variable jsonschema_validate : value -> value -> result unit.

(** X7. [validate_config] returns the empty list exactly when the library
    returns, and a list of one error exactly when the library raises a
    validation error: that error carries the library's message unchanged and
    the dot-joined path.  It returns nothing else. *)
Theorem validate_config_returns (config_data schema_data : value)
        (errors : list error_info) :
  validate_config jsonschema_validate config_data schema_data = Return errors
  <-> (jsonschema_validate config_data schema_data = Return tt /\ errors = [])
      \/ (exists e_message e_path,
             jsonschema_validate config_data schema_data
             = Raise (ValidationError e_message e_path)
             /\ errors
                = [mk_error e_message (Str.join "." (map str_segment e_path))]).
Proof.
  unfold validate_config. split.
  - destruct (jsonschema_validate config_data schema_data) as [[]|[]] eqn:Hlib;
      intros H; try discriminate H; injection H as <-.
    + left. now split.
    + right. now eexists _, _.
  - intros [[Hlib ->] | (m & p & Hlib & ->)]; now rewrite Hlib.
Qed.

(** X8. [validate_config] raises nothing but the [ValueError] for an
    invalid schema and the [Exception] for an unexpected error: the
    library's [ValidationError] never leaves it. *)
Theorem validate_config_raises (config_data schema_data : value) (e : exn) :
  validate_config jsonschema_validate config_data schema_data = Raise e ->
  (exists m, jsonschema_validate config_data schema_data = Raise (SchemaError m)
             /\ e = ValueError ("Invalid schema: " ++ m))
  \/ (exists cause,
         jsonschema_validate config_data schema_data = Raise cause
         /\ e = OtherException ("Unexpected validation error: " ++ str cause)).
Proof.
  unfold validate_config.
  destruct (jsonschema_validate config_data schema_data) as [[]|[]] eqn:Hlib;
    intros H; try discriminate H; injection H as <-;
    try (right; eexists; split; reflexivity).
  left. eexists. split; reflexivity.
Qed.

(** The path of a child is the path of its parent, a dot, and the child's
    own segment. *)
Lemma join_snoc (sep : string) (parts : list string) (last : string) :
  parts <> [] ->
  Str.join sep (parts ++l [last]) = Str.join sep parts ++ sep ++ last.
Proof.
  induction parts as [|p rest IH]; intros Hne; [congruence|].
  destruct rest as [|q rest]; [reflexivity|].
  change (Str.join sep ((p :: q :: rest) ++l [last]))
    with (p ++ sep ++ Str.join sep ((q :: rest) ++l [last])).
  rewrite IH by discriminate.
  change (Str.join sep (p :: q :: rest))
    with (p ++ sep ++ Str.join sep (q :: rest)).
  now repeat rewrite append_assoc.
Qed.

(** X9. Paths nest by appending: when the library's error lies one step
    below a node that is not the root, the path [validate_config] renders is
    the rendered path of that node, a dot, and the key or the index of the
    step. *)
Theorem validate_config_path_of_child (config_data schema_data : value)
        (e_message : string) (parent : list segment) (step : segment) :
  parent <> [] ->
  jsonschema_validate config_data schema_data
  = Raise (ValidationError e_message (parent ++l [step])) ->
  validate_config jsonschema_validate config_data schema_data
  = Return [mk_error e_message
                     (Str.join "." (map str_segment parent)
                      ++ "." ++ str_segment step)].
Proof.
  intros Hne Hlib. unfold validate_config. rewrite Hlib.
  rewrite map_app. cbn [map].
  rewrite join_snoc; [reflexivity|].
  destruct parent; [congruence|discriminate].
Qed.

End ValidationMore.

(** ** The report, further *)

(** X10. The report is the success message exactly for the empty list: a
    failure is never reported as a success. *)
Theorem generate_report_success_iff (errors : list error_info) :
  generate_report errors = "Configuration validation successful. No issues found."
  <-> errors = [].
Proof.
  split; [|now intros ->].
  destruct errors as [|e rest]; [reflexivity|].
  rewrite generate_report_failed. unfold header. cbn. discriminate.
Qed.

Lemma body_app (errors more : list error_info) :
  body (errors ++l more) = body errors ++ body more.
Proof.
  induction errors as [|e rest IH]; [reflexivity|].
  change (body ((e :: rest) ++l more)) with (entry_text e ++ body (rest ++l more)).
  change (body (e :: rest)) with (entry_text e ++ body rest).
  now rewrite IH, append_assoc.
Qed.

(** X11. Reports grow at the end: the report of a non-empty list followed
    by more errors is the report of that list followed by the lines of the
    further errors. *)
Theorem generate_report_app (errors more : list error_info) :
  errors <> [] ->
  generate_report (errors ++l more)
  = generate_report errors
    ++ fold_right
         (fun error rest =>
            ("  - Path: " ++ path error ++ Str.nl ++
             "    Message: " ++ message error ++ Str.nl) ++ rest)
         "" more.
Proof.
  destruct errors as [|e rest]; [congruence|]. intros _.
  change (fold_right _ "" more) with (body more).
  change ((e :: rest) ++l more) with (e :: (rest ++l more)).
  rewrite !generate_report_failed.
  change (e :: (rest ++l more)) with ((e :: rest) ++l more).
  now rewrite body_app, append_assoc.
Qed.

(** A pattern of one character is counted part by part. *)
Lemma occurrences_char_app (c : ascii) (a b : string) :
  Str.occurrences (String c "") (a ++ b)
  = Str.occurrences (String c "") a + Str.occurrences (String c "") b.
Proof.
  induction a as [|x a IH]; [reflexivity|].
  change (String x a ++ b) with (String x (a ++ b)).
  cbn [Str.occurrences Str.startswith]. rewrite IH.
  destruct (a ++ b), a; cbn; rewrite ?andb_true_r;
    destruct (Ascii.eqb c x); lia.
Qed.

(** X12. A report of [N] errors whose paths and messages hold no line feed
    has exactly [2 * N + 1] line feeds: the header line and two lines for
    each error. *)
Theorem generate_report_lines (e : error_info) (rest : list error_info) :
  (forall error, In error (e :: rest) ->
                 Str.contains Str.nl (path error) = false /\
                 Str.contains Str.nl (message error) = false) ->
  Str.occurrences Str.nl (generate_report (e :: rest))
  = 2 * List.length (e :: rest) + 1.
Proof.
  rewrite generate_report_failed. unfold header.
  generalize (e :: rest). clear e rest. intros errors Hfree.
  assert (Hbody : Str.occurrences Str.nl (body errors) = 2 * List.length errors).
  { induction errors as [|x errors IH]; [reflexivity|].
    change (body (x :: errors)) with (entry_text x ++ body errors).
    destruct (Hfree x (or_introl eq_refl)) as [Hp Hm].
    apply occurrences_absent in Hp, Hm.
    specialize (IH (fun y Hy => Hfree y (or_intror Hy))).
    unfold entry_text, Str.nl in *.
    rewrite !occurrences_char_app, IH, Hp, Hm.
    cbn. lia. }
  unfold Str.nl in *.
  rewrite !occurrences_char_app, Hbody. cbn. lia.
Qed.

(** ** The run, further *)

(** Settles a membership in a trace that is written out. *)
Ltac trace_cases H :=
  cbn in H;
  repeat (destruct H as [H | H]; [try discriminate H; try subst|]);
  try (now destruct H).

Section RunMore.

Variable open_read : string -> result string.
Variable yaml_safe_load json_load : string -> result value.
Variable jsonschema_validate : value -> value -> result unit.

Let load := load_config open_read yaml_safe_load json_load.
Let load_sch := load_schema open_read json_load.
Let validate := validate_config jsonschema_validate.
Let run := main_with_args open_read yaml_safe_load json_load jsonschema_validate.

(** X13. When standard output takes the report in every run that prints
    it, the exit code is decided by the two files alone: the log level, the
    output file and what writing the report does have no part in it.  When
    it does not, the output file matters: of two runs on documents that
    pass, the one that writes the report exits 0 whatever the write does,
    and the one that prints it exits 1. *)
Theorem exit_code_and_options open_write open_write' print_stdout print_stdout'
        (args args' : namespace) :
  config_file args = config_file args' ->
  schema_file args = schema_file args' ->
  ((given (output_file args) = None -> forall text, print_stdout text = Printed) ->
   (given (output_file args') = None -> forall text, print_stdout' text = Printed) ->
   snd (run open_write print_stdout args)
   = snd (run open_write' print_stdout' args'))
  /\ (forall config_data schema_data out,
         load (config_file args) = Return config_data ->
         load_sch (schema_file args) = Return schema_data ->
         validate config_data schema_data = Return [] ->
         given (output_file args) = Some out ->
         given (output_file args') = None ->
         print_stdout' (generate_report []) <> Printed ->
         snd (run open_write print_stdout args) = 0%Z
         /\ snd (run open_write' print_stdout' args') = 1%Z).
Proof.
  intros Hc Hs. unfold run, main_with_args. rewrite <- Hc, <- Hs.
  fold load load_sch. split.
  - intros Hprint Hprint'.
    destruct (load (config_file args)); [|now rewrite !main_except_exits_1].
    destruct (load_sch (schema_file args)); [|now rewrite !main_except_exits_1].
    fold validate.
    destruct (validate _ _) as [errors|]; [|now rewrite !main_except_exits_1].
    destruct (given (output_file args)) as [out|];
      [destruct (open_write out _)|rewrite (Hprint eq_refl)];
      (destruct (given (output_file args')) as [out'|];
       [destruct (open_write' out' _)|rewrite (Hprint' eq_refl)]);
      now destruct errors.
  - intros config_data schema_data out Hload Hschema Hv Hout Hnone Hfail.
    rewrite Hload, Hschema. fold validate. rewrite Hv, Hout, Hnone.
    split; [now destruct (open_write out _)|].
    destruct (print_stdout' (generate_report [])); [congruence|..];
      apply main_except_exits_1.
Qed.

(** X14. The only text a run prints or writes is the report of what
    [validate_config] returned for the two loaded documents; it is printed
    only when no output file is given, and a write appears in the trace only
    for the output file that is given and only when writing succeeded.  In
    particular a report whose write fails is not printed either. *)
Theorem report_events open_write print_stdout (args : namespace) (ev : event) :
  In ev (fst (run open_write print_stdout args)) ->
  match ev with
  | Log _ _ => True
  | Print text =>
      given (output_file args) = None
      /\ print_stdout text = Printed
      /\ exists config_data schema_data errors,
          load (config_file args) = Return config_data
          /\ load_sch (schema_file args) = Return schema_data
          /\ validate config_data schema_data = Return errors
          /\ text = generate_report errors
  | Write_file file text =>
      given (output_file args) = Some file
      /\ open_write file text = Return tt
      /\ exists config_data schema_data errors,
          load (config_file args) = Return config_data
          /\ load_sch (schema_file args) = Return schema_data
          /\ validate config_data schema_data = Return errors
          /\ text = generate_report errors
  end.
Proof.
  unfold run, main_with_args. fold load load_sch.
  destruct (load (config_file args)) as [config_data|e] eqn:Hc.
  2:{ intros Hin. destruct e; trace_cases Hin; exact I. }
  destruct (load_sch (schema_file args)) as [schema_data|e] eqn:Hs.
  2:{ intros Hin. destruct e; trace_cases Hin; exact I. }
  fold validate.
  destruct (validate config_data schema_data) as [errors|e] eqn:Hv.
  2:{ intros Hin. destruct e; trace_cases Hin; exact I. }
  destruct (given (output_file args)) as [out|] eqn:Hout.
  - destruct (open_write out (generate_report errors)) as [[]|e] eqn:Hw;
      destruct errors as [|error rest]; intros Hin; trace_cases Hin;
      try exact I;
      (split; [reflexivity|]; split; [exact Hw|]);
      do 3 eexists;
      (split; [reflexivity|split; [reflexivity|split; [exact Hv|reflexivity]]]).
  - destruct (print_stdout (generate_report errors)) eqn:Hp;
      destruct errors as [|error rest]; intros Hin; trace_cases Hin;
      try exact I;
      (split; [reflexivity|]; split; [exact Hp|]);
      do 3 eexists;
      (split; [reflexivity|split; [reflexivity|split; [exact Hv|reflexivity]]]).
Qed.

(** X15. A validation that found an error exits 1 and does not log
    completion, whether or not its report can be delivered: with no output
    file the run prints the report of the errors when standard output takes
    it, and logs the error of [print] when it does not. *)
Theorem failed_validation_reports open_write print_stdout (args : namespace)
        (config_data schema_data : value)
        (error : error_info) (rest : list error_info) :
  load (config_file args) = Return config_data ->
  load_sch (schema_file args) = Return schema_data ->
  validate config_data schema_data = Return (error :: rest) ->
  given (output_file args) = None ->
  run open_write print_stdout args
  = ([Log "INFO" "Starting chv-ServiceAccountPrivilegeChecker...";
      Log "INFO" ("Configuration file loaded: " ++ config_file args);
      Log "INFO" ("Schema file loaded: " ++ schema_file args);
      Log "INFO" "Configuration validation completed.";
      match print_stdout (generate_report (error :: rest)) with
      | Printed => Print (generate_report (error :: rest))
      | Encode_error encoding detail =>
          Log "ERROR" ("'" ++ encoding ++ "' codec can't encode " ++ detail)
      | Stream_error msg =>
          Log "ERROR" ("An unexpected error occurred: " ++ msg)
      end],
     1%Z).
Proof.
  intros Hc Hs Hv Hout. unfold run, main_with_args.
  fold load load_sch. rewrite Hc, Hs.
  fold validate. rewrite Hv, Hout.
  now destruct (print_stdout (generate_report (error :: rest))).
Qed.


(** X17. The [except jsonschema.exceptions.ValidationError] clause of
    [main] is never taken: no run logs a message that starts with
    [Schema validation error:]. *)
Theorem validation_error_clause_is_dead open_write print_stdout
        (args : namespace) (ev : event) (msg : string) :
  In ev (fst (run open_write print_stdout args)) ->
  ev <> Log "ERROR" ("Schema validation error: " ++ msg).
Proof.
  intros Hin ->. revert Hin.
  unfold run, main_with_args, load_config, load_schema, validate_config.
  destruct (load_config_body _ _ _ _) as [config_data|[]];
    try solve [intros Hin; trace_cases Hin].
  destruct (load_schema_body _ _ _) as [schema_data|[]];
    try solve [intros Hin; trace_cases Hin].
  destruct (jsonschema_validate config_data schema_data) as [[]|[]];
    try solve [intros Hin; trace_cases Hin];
    (destruct (given (output_file args)) as [out|];
     [destruct (open_write out _) as [[]|e]|destruct (print_stdout _)]);
    intros Hin; trace_cases Hin.
Qed.

End RunMore.

(** ** The script *)

Section ScriptMore.

Variable yaml_safe_load json_load : string -> result value.
Variable jsonschema_validate : value -> value -> result unit.
Variable open_write : string -> string -> result unit.
Variable print_stdout : string -> printed.
Variable setup_argparse : list string -> parsed.
Variable yaml_dump json_dump : value -> string.

Let run_script :=
  script yaml_safe_load json_load jsonschema_validate open_write
         print_stdout setup_argparse yaml_dump json_dump.

(** A run reads the disk only at the names it is given. *)
Lemma main_reads_by_name (disk disk' : string -> result string)
      (argv : list string) :
  (forall name, disk name = disk' name) ->
  main disk yaml_safe_load json_load jsonschema_validate open_write
       print_stdout setup_argparse argv
  = main disk' yaml_safe_load json_load jsonschema_validate open_write
         print_stdout setup_argparse argv.
Proof.
  intros Hsame. unfold main.
  destruct (setup_argparse argv) as [args|status]; [|reflexivity].
  unfold main_with_args, load_config, load_config_body,
    load_schema, load_schema_body.
  now rewrite (Hsame (config_file args)), (Hsame (schema_file args)).
Qed.

(** X18. The script overwrites [config.yaml] and [schema.json] before it
    reads anything: what the two files held before has no effect on the
    run, whatever the command line. *)
Theorem script_overwrites_samples (disk disk' : string -> result string)
        (argv : list string) :
  (forall name,
      name <> "config.yaml" -> name <> "schema.json" ->
      disk name = disk' name) ->
  run_script disk argv = run_script disk' argv.
Proof.
  intros Hsame. unfold run_script, script.
  destruct (open_write "config.yaml" _); [|reflexivity].
  destruct (open_write "schema.json" _); [|reflexivity].
  apply main_reads_by_name. intros name. unfold written.
  destruct (String.eqb_spec name "schema.json"); [reflexivity|].
  destruct (String.eqb_spec name "config.yaml"); [reflexivity|].
  now apply Hsame.
Qed.

(** X19. When either sample file cannot be written the process ends with
    status 1 before [main] is entered: nothing is parsed, loaded or logged,
    whatever the command line asks for. *)
Theorem script_needs_writable_directory (disk : string -> result string)
        (argv : list string) (e : exn) :
  open_write "config.yaml" (yaml_dump Sample.config_data) = Raise e
  \/ open_write "schema.json" (json_dump Sample.schema_data) = Raise e ->
  run_script disk argv = ([], 1%Z).
Proof.
  unfold run_script, script. intros [Hw | Hw]; rewrite Hw; [reflexivity|].
  now destruct (open_write "config.yaml" _).
Qed.

(** X20. Run on [config.yaml] and [schema.json], the script validates the
    sample configuration against the sample schema, not what the user had
    in these files: when both writes succeed and the parsers read back what
    was dumped, the exit code is 0 exactly when the library accepts the
    sample configuration under the sample schema and, with no output file,
    [print] delivers the report. *)
Theorem script_validates_samples (disk : string -> result string)
        (argv : list string) (args : namespace) :
  open_write "config.yaml" (yaml_dump Sample.config_data) = Return tt ->
  open_write "schema.json" (json_dump Sample.schema_data) = Return tt ->
  yaml_safe_load (yaml_dump Sample.config_data) = Return Sample.config_data ->
  json_load (json_dump Sample.schema_data) = Return Sample.schema_data ->
  setup_argparse argv = Args args ->
  config_file args = "config.yaml" ->
  schema_file args = "schema.json" ->
  (snd (run_script disk argv) = 0%Z
   <-> jsonschema_validate Sample.config_data Sample.schema_data = Return tt
       /\ (given (output_file args) = None ->
           print_stdout (generate_report []) = Printed)).
Proof.
  intros Hw1 Hw2 Hyaml Hjson Hargs Hc Hs.
  unfold run_script, script, main. rewrite Hw1, Hw2, Hargs.
  unfold main_with_args, load_config, load_config_body,
    load_schema, load_schema_body.
  rewrite Hc, Hs.
  change (written _ "schema.json" _ "config.yaml")
    with (@Return string (yaml_dump Sample.config_data)).
  change (written _ "schema.json" _ "schema.json")
    with (@Return string (json_dump Sample.schema_data)).
  change (Str.endswith "config.yaml" ".yaml" || Str.endswith "config.yaml" ".yml")
    with true.
  cbv beta iota. rewrite Hyaml. cbv beta iota.
  rewrite Hjson. cbv beta iota. unfold validate_config.
  destruct (jsonschema_validate Sample.config_data Sample.schema_data)
    as [[]|e].
  - cbv beta iota zeta.
    destruct (given (output_file args)) as [out|].
    + destruct (open_write out _); cbn [snd];
        (split; [|reflexivity]); intros _;
        (split; [reflexivity|]); intros Hnone; discriminate Hnone.
    + destruct (print_stdout (generate_report []));
        rewrite ?main_except_exits_1; cbn [snd].
      * split; [|reflexivity]. intros _. split; [reflexivity|]. reflexivity.
      * split; [discriminate|]. intros [_ Hp]. discriminate (Hp eq_refl).
      * split; [discriminate|]. intros [_ Hp]. discriminate (Hp eq_refl).
  - split; [|intros [Hlib _]; discriminate Hlib].
    destruct e; cbn [app]; cbv beta iota zeta;
      rewrite ?main_except_exits_1; try discriminate;
      (destruct (given (output_file args)) as [out|];
       [destruct (open_write out _)|destruct (print_stdout _)]);
      rewrite ?main_except_exits_1; cbn [snd]; discriminate.
Qed.

End ScriptMore.

(** ** The further theorems at work *)

Lemma load_config_raises_witness :
  ValueError "Error loading configuration file: [Errno 13] Permission denied: 'secret.toml'"
  = FileNotFoundError "Configuration file not found: secret.toml"
  \/ exists m,
      ValueError "Error loading configuration file: [Errno 13] Permission denied: 'secret.toml'"
      = ValueError ("Error loading configuration file: " ++ m).
Proof.
  exact (load_config_raises Files.open_read Files.yaml_safe_load Files.json_load
                            "secret.toml" _ eq_refl).
Defined.

Lemma load_config_selects_parser_witness :
  load_config Files.open_read Files.yaml_safe_load Files.json_load "config.json"
  = load_config Files.open_read Disk.yaml_safe_load Files.json_load "config.json"
  /\ load_config Disk.open_read Disk.yaml_safe_load Disk.json_load "broken.yaml"
     = load_config Disk.open_read Disk.yaml_safe_load Files.json_load "broken.yaml".
Proof.
  split.
  - exact (proj1 (load_config_selects_parser
                    Files.open_read Files.yaml_safe_load Files.json_load
                    "config.json") eq_refl Disk.yaml_safe_load).
  - exact (proj2 (load_config_selects_parser
                    Disk.open_read Disk.yaml_safe_load Disk.json_load
                    "broken.yaml") eq_refl Files.json_load).
Defined.

Lemma load_config_returns_witness :
  load_config Files.open_read Files.yaml_safe_load Files.json_load "config.json"
  = Return Sample.scenario_a.
Proof.
  apply (proj2 (load_config_returns
                  Files.open_read Files.yaml_safe_load Files.json_load
                  "config.json" Sample.scenario_a)).
  exists "<scenario A>". split; [reflexivity|].
  right. split; reflexivity.
Defined.

Lemma load_config_parse_error_witness :
  load_config Disk.open_read Disk.yaml_safe_load Disk.json_load "broken.yaml"
  = Raise (ValueError
             "Error loading configuration file: Error loading YAML file: while parsing a flow node").
Proof.
  exact (proj1 (load_config_parse_error
                  Disk.open_read Disk.yaml_safe_load Disk.json_load
                  "broken.yaml" "{" "while parsing a flow node" eq_refl)
               eq_refl eq_refl).
Defined.

Lemma load_schema_returns_witness :
  load_schema Disk.open_read Disk.json_load "schema.json"
  = Return Sample.schema_data.
Proof.
  apply (proj2 (load_schema_returns Disk.open_read Disk.json_load
                                    "schema.json" Sample.schema_data)).
  exists "<sample schema>". split; reflexivity.
Defined.

Lemma load_schema_raises_witness :
  load_schema Disk.open_read Disk.json_load "baseline.json"
  = Raise (FileNotFoundError "Schema file not found: baseline.json")
  /\ load_schema Disk.open_read Disk.json_load "broken.yaml"
     = Raise (ValueError
                "Error loading schema file: Error loading JSON schema: Expecting value: line 1 column 1 (char 0)").
Proof.
  split.
  - exact (proj1 (proj2 (load_schema_raises Disk.open_read Disk.json_load
                                            "baseline.json"))
                 "[Errno 2] No such file or directory: 'baseline.json'" eq_refl).
  - exact (proj2 (proj2 (load_schema_raises Disk.open_read Disk.json_load
                                            "broken.yaml"))
                 "{" "Expecting value: line 1 column 1 (char 0)" eq_refl eq_refl).
Defined.

Lemma validate_config_returns_witness :
  validate_config Sample.jsonschema_validate Sample.scenario_c Sample.schema_data
  = Return [mk_error "has non-unique elements" "service_accounts.0.permissions"].
Proof.
  apply (proj2 (validate_config_returns
                  Sample.jsonschema_validate Sample.scenario_c Sample.schema_data
                  [mk_error "has non-unique elements"
                            "service_accounts.0.permissions"])).
  right.
  exists "has non-unique elements",
         [Key "service_accounts"; Index 0; Key "permissions"].
  split; reflexivity.
Defined.

Lemma validate_config_raises_witness :
  (exists m,
      Sample.jsonschema_validate Sample.config_data (Sequence [])
      = Raise (SchemaError m)
      /\ ValueError "Invalid schema: schema is not valid"
         = ValueError ("Invalid schema: " ++ m))
  \/ (exists cause,
         Sample.jsonschema_validate Sample.config_data (Sequence [])
         = Raise cause
         /\ ValueError "Invalid schema: schema is not valid"
            = OtherException ("Unexpected validation error: " ++ str cause)).
Proof.
  exact (validate_config_raises Sample.jsonschema_validate
                                Sample.config_data (Sequence []) _ eq_refl).
Defined.

Lemma validate_config_path_of_child_witness :
  validate_config Sample.jsonschema_validate Sample.scenario_b Sample.schema_data
  = Return [mk_error "'permissions' is a required property"
                     ("service_accounts" ++ "." ++ "0")].
Proof.
  refine (validate_config_path_of_child
            Sample.jsonschema_validate Sample.scenario_b Sample.schema_data
            "'permissions' is a required property"
            [Key "service_accounts"] (Index 0) _ eq_refl).
  discriminate.
Defined.

Lemma generate_report_success_iff_witness :
  generate_report [] = "Configuration validation successful. No issues found.".
Proof.
  exact (proj2 (generate_report_success_iff []) eq_refl).
Defined.

Lemma generate_report_app_witness :
  generate_report ([mk_error "is not of type 'array'" "service_accounts"]
                   ++l [mk_error "has non-unique elements" "a.0"])
  = generate_report [mk_error "is not of type 'array'" "service_accounts"]
    ++ ("  - Path: a.0" ++ Str.nl ++ "    Message: has non-unique elements" ++ Str.nl).
Proof.
  refine (generate_report_app
            [mk_error "is not of type 'array'" "service_accounts"]
            [mk_error "has non-unique elements" "a.0"] _).
  discriminate.
Defined.

Lemma generate_report_lines_witness :
  Str.occurrences Str.nl
    (generate_report [mk_error "is not of type 'array'" "service_accounts";
                      mk_error "has non-unique elements" "a.0"])
  = 5.
Proof.
  apply (generate_report_lines
           (mk_error "is not of type 'array'" "service_accounts")
           [mk_error "has non-unique elements" "a.0"]).
  intros error [<- | [<- | []]]; split; reflexivity.
Defined.

Lemma exit_code_and_options_witness :
  snd (main_with_args Files.open_read Files.yaml_safe_load Files.json_load
                      Sample.jsonschema_validate Files.open_write Disk.closed_pipe
                      (mk_args "config.json" "schema.json" "DEBUG" (Some "report.txt")))
  = snd (main_with_args Files.open_read Files.yaml_safe_load Files.json_load
                        Sample.jsonschema_validate Disk.open_write Files.print_stdout
                        (mk_args "config.json" "schema.json" "ERROR" None))
  /\ (snd (main_with_args Files.open_read Files.yaml_safe_load Files.json_load
                          Sample.jsonschema_validate Files.open_write Files.print_stdout
                          (mk_args "config.json" "schema.json" "INFO" (Some "report.txt")))
      = 0%Z
      /\ snd (main_with_args Files.open_read Files.yaml_safe_load Files.json_load
                             Sample.jsonschema_validate Disk.open_write Disk.closed_pipe
                             (mk_args "config.json" "schema.json" "INFO" None))
         = 1%Z).
Proof.
  split.
  - apply (proj1 (exit_code_and_options
                    Files.open_read Files.yaml_safe_load Files.json_load
                    Sample.jsonschema_validate Files.open_write Disk.open_write
                    Disk.closed_pipe Files.print_stdout
                    (mk_args "config.json" "schema.json" "DEBUG" (Some "report.txt"))
                    (mk_args "config.json" "schema.json" "ERROR" None)
                    eq_refl eq_refl)).
    + intros Hnone. discriminate Hnone.
    + intros _ text. reflexivity.
  - apply (proj2 (exit_code_and_options
                    Files.open_read Files.yaml_safe_load Files.json_load
                    Sample.jsonschema_validate Files.open_write Disk.open_write
                    Files.print_stdout Disk.closed_pipe
                    (mk_args "config.json" "schema.json" "INFO" (Some "report.txt"))
                    (mk_args "config.json" "schema.json" "INFO" None)
                    eq_refl eq_refl)
                 Sample.scenario_a Sample.schema_data "report.txt"
                 eq_refl eq_refl eq_refl eq_refl eq_refl).
    discriminate.
Defined.

Lemma report_events_witness :
  given (Some "report.txt") = Some "report.txt"
  /\ Disk.open_write "report.txt"
                     "Configuration validation successful. No issues found."
     = Return tt
  /\ exists config_data schema_data errors,
      load_config Files.open_read Files.yaml_safe_load Files.json_load "config.json"
      = Return config_data
      /\ load_schema Files.open_read Files.json_load "schema.json"
         = Return schema_data
      /\ validate_config Sample.jsonschema_validate config_data schema_data
         = Return errors
      /\ "Configuration validation successful. No issues found."
         = generate_report errors.
Proof.
  refine (report_events
            Files.open_read Files.yaml_safe_load Files.json_load
            Sample.jsonschema_validate Disk.open_write Files.print_stdout
            (mk_args "config.json" "schema.json" "INFO" (Some "report.txt"))
            (Write_file "report.txt"
                        "Configuration validation successful. No issues found.")
            _).
  cbn. tauto.
Defined.

Lemma failed_validation_reports_witness :
  main_with_args Disk.open_read Disk.yaml_safe_load Disk.json_load
                 Sample.jsonschema_validate Disk.open_write Disk.closed_pipe
                 (mk_args "faulty.json" "schema.json" "INFO" None)
  = ([Log "INFO" "Starting chv-ServiceAccountPrivilegeChecker...";
      Log "INFO" "Configuration file loaded: faulty.json";
      Log "INFO" "Schema file loaded: schema.json";
      Log "INFO" "Configuration validation completed.";
      Log "ERROR" "An unexpected error occurred: [Errno 32] Broken pipe"],
     1%Z).
Proof.
  exact (failed_validation_reports
           Disk.open_read Disk.yaml_safe_load Disk.json_load
           Sample.jsonschema_validate Disk.open_write Disk.closed_pipe
           (mk_args "faulty.json" "schema.json" "INFO" None)
           Sample.scenario_b Sample.schema_data
           (mk_error "'permissions' is a required property" "service_accounts.0")
           [] eq_refl eq_refl eq_refl eq_refl).
Defined.


Lemma validation_error_clause_is_dead_witness :
  Log "ERROR" "Error loading schema file: Error loading JSON schema: Expecting value: line 1 column 1 (char 0)"
  <> Log "ERROR" ("Schema validation error: " ++ "'name' is a required property").
Proof.
  refine (validation_error_clause_is_dead
            Disk.open_read Disk.yaml_safe_load Disk.json_load
            Sample.jsonschema_validate Disk.open_write Files.print_stdout
            (mk_args "faulty.json" "broken.yaml" "INFO" None)
            _ "'name' is a required property" _).
  cbn. tauto.
Defined.

Lemma script_overwrites_samples_witness :
  script Disk.yaml_safe_load Disk.json_load Sample.jsonschema_validate
         Disk.open_write Files.print_stdout Files.setup_argparse
         Disk.yaml_dump Disk.json_dump
         Disk.open_read ["config.yaml"; "schema.json"]
  = script Disk.yaml_safe_load Disk.json_load Sample.jsonschema_validate
           Disk.open_write Files.print_stdout Files.setup_argparse
           Disk.yaml_dump Disk.json_dump
           (written Disk.open_read "config.yaml" "service_accounts: []")
           ["config.yaml"; "schema.json"].
Proof.
  apply (script_overwrites_samples
           Disk.yaml_safe_load Disk.json_load Sample.jsonschema_validate
           Disk.open_write Files.print_stdout Files.setup_argparse
           Disk.yaml_dump Disk.json_dump
           Disk.open_read
           (written Disk.open_read "config.yaml" "service_accounts: []")
           ["config.yaml"; "schema.json"]).
  intros name Hconfig _. unfold written.
  destruct (String.eqb_spec name "config.yaml"); [contradiction|reflexivity].
Defined.

Lemma script_needs_writable_directory_witness :
  script Disk.yaml_safe_load Disk.json_load Sample.jsonschema_validate
         Disk.read_only Files.print_stdout Files.setup_argparse
         Disk.yaml_dump Disk.json_dump
         Disk.open_read ["-h"]
  = ([], 1%Z).
Proof.
  exact (script_needs_writable_directory
           Disk.yaml_safe_load Disk.json_load Sample.jsonschema_validate
           Disk.read_only Files.print_stdout Files.setup_argparse
           Disk.yaml_dump Disk.json_dump
           Disk.open_read ["-h"]
           (OtherException "[Errno 30] Read-only file system")
           (or_introl eq_refl)).
Defined.

Lemma script_validates_samples_witness :
  snd (script Disk.yaml_safe_load Disk.json_load Sample.jsonschema_validate
              Disk.open_write Files.print_stdout Files.setup_argparse
              Disk.yaml_dump Disk.json_dump
              Disk.open_read ["config.yaml"; "schema.json"])
  = 0%Z.
Proof.
  apply (proj2 (script_validates_samples
                  Disk.yaml_safe_load Disk.json_load Sample.jsonschema_validate
                  Disk.open_write Files.print_stdout Files.setup_argparse
                  Disk.yaml_dump Disk.json_dump
                  Disk.open_read ["config.yaml"; "schema.json"]
                  (mk_args "config.yaml" "schema.json" "INFO" None)
                  eq_refl eq_refl eq_refl eq_refl eq_refl eq_refl eq_refl)).
  split; [reflexivity|]. intros _. reflexivity.
Defined.

(** ** The required property of a nested mapping *)

Lemma missing_required_reported_at_path_witness :
  validate_config
    Sample.jsonschema_validate
    (Mapping [("service_accounts",
               Sequence [Sample.account "web_server" ["read"; "write"];
                         Mapping [("name", String_ "database_server")]])])
    Sample.schema_data
  = Return [mk_error "'permissions' is a required property" "service_accounts.1"].
Proof.
  refine (proj2 (missing_required_reported_at_path
                   (fun _ => "schema is not valid")
                   (Mapping [("service_accounts",
                              Sequence [Sample.account "web_server" ["read"; "write"];
                                        Mapping [("name", String_ "database_server")]])])
                   Sample.schema_data
                   [("type", String_ "object");
                    ("properties",
                     Mapping
                       [("name", Mapping [("type", String_ "string")]);
                        ("permissions",
                         Mapping
                           [("type", String_ "array");
                            ("items", Mapping [("type", String_ "string")]);
                            ("uniqueItems", Boolean true)])]);
                    ("required", Sample.strings ["name"; "permissions"])]
                   [("name", String_ "database_server")]
                   [Key "service_accounts"; Index 1]
                   "permissions" eq_refl _ _ eq_refl)).
  - eapply (reaches_property _ _ [] "service_accounts" _ [] _ []).
    + intros t Ht. cbn in Ht. now injection Ht as <-.
    + intros name [<- | []]. reflexivity.
    + reflexivity.
    + intros entry sub' [].
    + reflexivity.
    + eapply (reaches_item _ _ [Sample.account "web_server" ["read"; "write"]]
                           _ [] [Key "service_accounts"]).
      * intros t Ht. cbn in Ht. now injection Ht as <-.
      * reflexivity.
      * intros element [<- | []].
        now apply (JsonschemaFacts.no_violation_conforms _ _ []).
      * apply reaches_here.
  - intros t Ht. cbn in Ht. now injection Ht as <-.
Defined.
